(** * JSONVault: the key/value store, its expiry sweep and the static-file route

    A shallow embedding of [utils/setdynamicConfig.js] (the store, [logError],
    [setDynamicConfig], [getDynamicConfigData], [returnLogs],
    [compareDateInDays], [removeDayOldData]) and of [serveStaticFile] from the
    server's entry file.

    Conventions of the embedding:
    - a JavaScript string is a [string] whose characters are the code units 0..255;
    - a number carried in a payload is an IEEE double ([float]);
    - a time value is an integer count of milliseconds ([Z]); an invalid date is [None];
    - handlers run in a state-and-exception monad over a [world] that holds the
      store file, the error log, the console, the clock and the pending I/O faults;
    - the store file holds text: [writeConfigFile] puts there what
      [JSON.stringify] writes, which is not always the value it was handed, and
      [readConfigFile] returns what [JSON.parse] reads;
    - one request sees one value of the clock;
    - the runtime's [JSON.parse], [Date] parser, [toISOString] and
      [encodeURIComponent] are parameters; [encodeURIComponent] may throw. *)

From Stdlib Require Import ZArith QArith List String Ascii Bool Lia Floats.
From Stdlib Require DecimalString.
From stdpp Require Import base list.
Close Scope Q_scope.
Import ListNotations.

Set Warnings "-register-all".

(** ** JavaScript values and the string primitives the handlers call *)
Module Js.

Open Scope string_scope.

Inductive jsval :=
| JUndefined
| JNull
| JBool (b : bool)
| JNum (x : float)
| JStr (s : string)
| JArr (items : list jsval)
| JObj (fields : list (string * jsval)).

(** [!v] is [negb (truthy v)]. *)
Definition truthy (v : jsval) : bool :=
  match v with
  | JUndefined | JNull => false
  | JBool b => b
  | JNum x => negb (PrimFloat.eqb x 0%float || PrimFloat.is_nan x)
  | JStr s => negb (String.eqb s "")
  | JArr _ | JObj _ => true
  end.

(** [typeof v === "string"] *)
Definition is_string (v : jsval) : bool :=
  match v with JStr _ => true | _ => false end.

(** [o.name] for an own property of a plain object; [undefined] elsewhere. *)
Fixpoint lookup_field (name : string) (fields : list (string * jsval)) : jsval :=
  match fields with
  | [] => JUndefined
  | (k, v) :: rest => if String.eqb k name then v else lookup_field name rest
  end.

Definition get_prop (name : string) (v : jsval) : jsval :=
  match v with
  | JObj fields => lookup_field name fields
  | _ => JUndefined
  end.

(** [JSON.parse(JSON.stringify(v))]: the value that the text written for [v]
    spells. [JSON.stringify] writes [null] for a number that is not finite
    and for an [undefined] element of an array, [0] for [-0], and leaves out
    a property whose value is [undefined]. *)
Fixpoint as_json (v : jsval) : jsval :=
  match v with
  | JNum x =>
      if PrimFloat.is_nan x || PrimFloat.is_infinity x then JNull
      else if PrimFloat.is_zero x && PrimFloat.get_sign x then JNum 0%float
      else v
  | JArr items =>
      JArr (map (fun item => match item with
                             | JUndefined => JNull
                             | _ => as_json item
                             end) items)
  | JObj fields =>
      JObj ((fix members (fs : list (string * jsval)) : list (string * jsval) :=
               match fs with
               | [] => []
               | (name, JUndefined) :: rest => members rest
               | (name, x) :: rest => (name, as_json x) :: members rest
               end) fields)
  | _ => v
  end.

(** A value that [JSON.stringify] writes without loss: nothing in it is
    [undefined], and every number is finite and not [-0]. *)
Fixpoint plain_json (v : jsval) : bool :=
  match v with
  | JUndefined => false
  | JNum x =>
      negb (PrimFloat.is_nan x || PrimFloat.is_infinity x)
      && negb (PrimFloat.is_zero x && PrimFloat.get_sign x)
  | JArr items => forallb plain_json items
  | JObj fields => forallb (fun f => plain_json (snd f)) fields
  | _ => true
  end.

(** White space and line terminators among the code units below 256. *)
Definition is_white_space (c : ascii) : bool :=
  let n := nat_of_ascii c in
  ((9 <=? n)%nat && (n <=? 13)%nat) || (n =? 32)%nat || (n =? 160)%nat.

Fixpoint trimStart (s : string) : string :=
  match s with
  | EmptyString => EmptyString
  | String c rest => if is_white_space c then trimStart rest else s
  end.

Fixpoint trimEnd (s : string) : string :=
  match s with
  | EmptyString => EmptyString
  | String c rest =>
      let r := trimEnd rest in
      if is_white_space c && String.eqb r "" then EmptyString else String c r
  end.

(** [String.prototype.trim] *)
Definition trim (s : string) : string := trimEnd (trimStart s).

(** [s.startsWith(p)] *)
Definition startsWith (s p : string) : bool := String.prefix p s.

Definition lower_char (c : ascii) : ascii :=
  let n := nat_of_ascii c in
  if ((65 <=? n)%nat && (n <=? 90)%nat)
     || ((192 <=? n)%nat && (n <=? 222)%nat && negb (n =? 215)%nat)
  then ascii_of_nat (n + 32) else c.

(** [String.prototype.toLowerCase] *)
Fixpoint toLowerCase (s : string) : string :=
  match s with
  | EmptyString => EmptyString
  | String c rest => String (lower_char c) (toLowerCase rest)
  end.

(** [Array.prototype.findIndex]: the first index that satisfies [p], or -1. *)
Fixpoint findIndex {A : Type} (p : A -> bool) (l : list A) : Z :=
  match l with
  | [] => (-1)%Z
  | x :: rest =>
      if p x then 0%Z
      else let i := findIndex p rest in
           if (i =? -1)%Z then (-1)%Z else (i + 1)%Z
  end.

End Js.

(** ** The store document and the file that holds it *)
Module Store.
Import Js.

(** One stored submission: [{ key, data, storedDate }], with the types
    [setDynamicConfig] writes: the key and the time stamp are strings. *)
Record Mapping := { key : string; data : jsval; storedDate : string }.

(** The document [{ mappings: [...] }]. *)
Record config := { mappings : list Mapping }.

(** What [JSON.parse] makes of the file's text: a store document, or some
    other JSON value whose [mappings] property is not an array (a call of
    [findIndex], [find] or [filter] on it throws a TypeError). *)
Inductive parsed :=
| Config (c : config)
| NotConfig.

Inductive text :=
| Garbled                     (* not JSON text *)
| Json_text (p : parsed).     (* the text [JSON.parse] reads as [p] *)

(** A mapping as [JSON.stringify] writes it: the key and the time stamp are
    strings and written as they are. *)
Definition written (m : Mapping) : Mapping :=
  {| key := key m; data := as_json (data m); storedDate := storedDate m |}.

(** [JSON.stringify(data, null, 2)] for a store document. *)
Definition JSON_stringify (c : config) : text :=
  Json_text (Config {| mappings := map written (mappings c) |}).

(** [dynamicConfig.json] as [fs.readFile] finds it. *)
Inductive file :=
| Absent                      (* rejects with ENOENT *)
| Unreadable (code : string)  (* rejects with another error code *)
| Content (t : text).

End Store.

(** ** Errors, the world and the monad the handlers run in *)
Module Rt.
Import Js Store.
Open Scope string_scope.

Inductive js_error :=
| FsError (code : string)     (* a rejected [fs] call; [code] is [err.code] *)
| SyntaxError                 (* thrown by [JSON.parse] *)
| TypeError                   (* a property read on [undefined] or [null] *)
| URIError.                   (* thrown by [encodeURIComponent] *)

(** [err.code === c] *)
Definition has_code (e : js_error) (c : string) : bool :=
  match e with
  | FsError code => String.eqb code c
  | _ => false
  end.

(** One line of [errorLogger.txt]: the time stamp and the error's stack. *)
Record log_entry := { stamp : string; logged : js_error }.

Inductive console_event :=
| Peer (forwarded remote ip : jsval)
| LogWriteFailed (e : js_error)
| CleanedUp (n : Z)
| CleanupFailed (e : js_error).

Inductive disk_entry :=
| NoEntry
| Bytes (b : string)
| Refuses (code : string).

Record world := World {
  config_file : file;
  error_log : list log_entry;
  console : list console_event;
  faults : list (option string);  (* one per write to come: [Some code] rejects *)
  clock : Z;                      (* [new Date()], in milliseconds *)
  disk : string -> disk_entry;    (* the other files, by path *)
  reads : list string }.          (* the paths [fs.readFile] was asked for *)

Definition set_config_file (f : file) (w : world) : world :=
  World f (error_log w) (console w) (faults w) (clock w) (disk w) (reads w).
Definition set_error_log (l : list log_entry) (w : world) : world :=
  World (config_file w) l (console w) (faults w) (clock w) (disk w) (reads w).
Definition set_console (c : list console_event) (w : world) : world :=
  World (config_file w) (error_log w) c (faults w) (clock w) (disk w) (reads w).
Definition set_faults (f : list (option string)) (w : world) : world :=
  World (config_file w) (error_log w) (console w) f (clock w) (disk w) (reads w).
Definition set_reads (r : list string) (w : world) : world :=
  World (config_file w) (error_log w) (console w) (faults w) (clock w) (disk w) r.

Definition M (A : Type) : Type := world -> (js_error + A) * world.

Definition ret {A : Type} (a : A) : M A := fun w => (inr a, w).

Definition bind {A B : Type} (m : M A) (k : A -> M B) : M B :=
  fun w => match m w with
           | (inl e, w') => (inl e, w')
           | (inr a, w') => k a w'
           end.

Definition throw {A : Type} (e : js_error) : M A := fun w => (inl e, w).

(** [try { m } catch (e) { h e }] *)
Definition try_catch {A : Type} (m : M A) (h : js_error -> M A) : M A :=
  fun w => match m w with
           | (inl e, w') => h e w'
           | (inr a, w') => (inr a, w')
           end.

Declare Scope js_scope.
Delimit Scope js_scope with js.
Notation "x <- m ;; k" := (bind m (fun x => k))
  (at level 100, m at next level, right associativity) : js_scope.
Notation "m ;; k" := (bind m (fun _ => k))
  (at level 100, right associativity) : js_scope.
Open Scope js_scope.

Definition now : M Z := fun w => (inr (clock w), w).

Definition console_write (ev : console_event) : M unit :=
  fun w => (inr tt, set_console (console w ++ [ev]) w).

(** A write to the file system: the next pending fault decides whether it
    is rejected; a write that goes through commits its effect. *)
Definition fs_write (commit : world -> world) : M unit :=
  fun w => match faults w with
           | Some code :: rest => (inl (FsError code), set_faults rest w)
           | None :: rest => (inr tt, commit (set_faults rest w))
           | [] => (inr tt, commit w)
           end.

(** [fs.readFile(CONFIG_PATH, "utf8")] *)
Definition readFile_config : M text :=
  fun w => match config_file w with
           | Absent => (inl (FsError "ENOENT"), w)
           | Unreadable code => (inl (FsError code), w)
           | Content t => (inr t, w)
           end.

(** [JSON.parse] of the store file's text. *)
Definition parse_text (t : text) : M parsed :=
  match t with
  | Garbled => throw SyntaxError
  | Json_text p => ret p
  end.

(** [fs.readFile(path)] on the other files. *)
Definition readFile (p : string) : M string :=
  fun w => let w' := set_reads (reads w ++ [p]) w in
           match disk w p with
           | NoEntry => (inl (FsError "ENOENT"), w')
           | Refuses code => (inl (FsError code), w')
           | Bytes b => (inr b, w')
           end.

(** What a handler does with the request. *)
Inductive payload :=
| Json (body : jsval)
| Raw (contentType : string) (bytes : string).

Inductive outcome :=
| Replied (status : Z) (p : payload)
| Next
| NextErr (e : js_error).

Definition status_of (o : outcome) : option Z :=
  match o with
  | Replied s _ => Some s
  | _ => None
  end.

End Rt.

(** ** utils/setdynamicConfig.js *)
Module DynamicConfig.
Import Js Store Rt.
Open Scope string_scope.
Open Scope js_scope.

(** What the handlers read of an Express request. *)
Record request := {
  body : jsval;            (* [req.body] *)
  query : jsval;           (* [req.query] *)
  forwarded_for : jsval;   (* [req.headers["x-forwarded-for"]] *)
  remote_address : jsval;  (* [req.socket.remoteAddress] *)
  ip : jsval }.            (* [req.ip] *)

Section Handlers.

(** The runtime: [JSON.parse] ([None] when it throws), [new Date(s).getTime()]
    ([None] for an invalid date), [Date.prototype.toISOString] and
    [encodeURIComponent] ([None] when it throws, which it does on a string
    with a lone surrogate). *)
Variable JSON_parse : string -> option jsval.
Variable Date_parse : string -> option Z.
Variable toISOString : Z -> string.
Variable encodeURIComponent : string -> option string.

Definition writeConfigFile (c : config) : M unit :=
  fs_write (set_config_file (Content (JSON_stringify c))).

Definition readConfigFile : M parsed :=
  try_catch
    (data <- readFile_config ;; parse_text data)
    (fun error =>
       if has_code error "ENOENT"
       then writeConfigFile {| mappings := [] |} ;; ret (Config {| mappings := [] |})
       else throw error).

Definition logError (error : js_error) : M unit :=
  t <- now ;;
  let entry := {| stamp := toISOString t; logged := error |} in
  try_catch
    (fs_write (fun w => set_error_log (error_log w ++ [entry]) w))
    (fun err => console_write (LogWriteFailed err)).

(** [const { a, b } = v] throws on [undefined] and [null]. *)
Definition destructured (v : jsval) : M jsval :=
  match v with
  | JUndefined | JNull => throw TypeError
  | _ => ret v
  end.

(** [config.mappings.f(...)] for an array method [f]. *)
Definition mappings_of (p : parsed) : M (list Mapping) :=
  match p with
  | Config c => ret (mappings c)
  | NotConfig => throw TypeError
  end.

(** [v.trim()] *)
Definition call_trim (v : jsval) : M string :=
  match v with
  | JStr s => ret (trim s)
  | _ => throw TypeError
  end.

(** [encodeURIComponent(s)] *)
Definition call_encodeURIComponent (s : string) : M string :=
  match encodeURIComponent s with
  | Some u => ret u
  | None => throw URIError
  end.

(** [s === v] for a string [s]. *)
Definition strict_eq (s : string) (v : jsval) : bool :=
  match v with
  | JStr s' => String.eqb s s'
  | _ => false
  end.

(** [!v || typeof v !== "string" || v.trim() === ""] *)
Definition not_a_key (v : jsval) : bool :=
  negb (truthy v) || negb (is_string v)
  || match v with JStr s => String.eqb (trim s) "" | _ => false end.

(** [typeof jsonData === "string" ? JSON.parse(jsonData) : jsonData] *)
Definition parse_data (jsonData : jsval) : M jsval :=
  match jsonData with
  | JStr s => match JSON_parse s with
              | Some v => ret v
              | None => throw SyntaxError
              end
  | _ => ret jsonData
  end.

Definition failure (status : Z) (message : string) : outcome :=
  Replied status (Json (JObj [("success", JBool false); ("message", JStr message)])).

Definition setDynamicConfig (req : request) : M outcome :=
  console_write (Peer (forwarded_for req) (remote_address req) (ip req)) ;;
  try_catch
    (b <- destructured (body req) ;;
     let key := get_prop "key" b in
     let jsonData := get_prop "data" b in
     if not_a_key key
     then ret (failure 400 "Key is required and must be a non-empty string")
     else if negb (truthy jsonData)
     then ret (failure 400 "Data is required")
     else
       parsedData <- try_catch (v <- parse_data jsonData ;; ret (Some v))
                               (fun parseError => ret None) ;;
       match parsedData with
       | None => ret (failure 400 "Invalid JSON data provided")
       | Some parsedData =>
           config <- readConfigFile ;;
           ms <- mappings_of config ;;
           let existingIndex := findIndex (fun mapping => strict_eq (Store.key mapping) key) ms in
           trimmed <- call_trim key ;;
           t <- now ;;
           let newMapping :=
             {| Store.key := trimmed; data := parsedData; storedDate := toISOString t |} in
           let ms' :=
             if negb (existingIndex =? -1)%Z
             then <[Z.to_nat existingIndex := newMapping]> ms
             else (ms ++ [newMapping])%list in
           writeConfigFile {| mappings := ms' |} ;;
           encoded <- call_encodeURIComponent trimmed ;;
           ret (Replied 200 (Json (JObj
                  [("success", JBool true);
                   ("message", JStr "Data saved successfully");
                   ("key", JStr trimmed);
                   ("accessUrl", JStr ("/getData?id=" ++ encoded))])))
       end)
    (fun err =>
       logError err ;;
       ret (failure 500 "An error occurred while saving data")).

Definition getDynamicConfigData (req : request) : M outcome :=
  try_catch
    (q <- destructured (query req) ;;
     let id := get_prop "id" q in
     if not_a_key id
     then ret (failure 400 "Query parameter 'id' is required")
     else
       config <- readConfigFile ;;
       ms <- mappings_of config ;;
       trimmed <- call_trim id ;;
       match List.find (fun m => String.eqb (Store.key m) trimmed) ms with
       | None => ret (failure 404 "Data not found. Please check the ID and try again.")
       | Some mapping =>
           ret (Replied 200 (Json (JObj
                  [("success", JBool true);
                   ("key", JStr (Store.key mapping));
                   ("data", data mapping);
                   ("storedDate", JStr (storedDate mapping))])))
       end)
    (fun err =>
       logError err ;;
       ret (failure 500 "An error occurred while retrieving data")).

(** [diffMs / (1000 * 60 * 60 * 24)]; [None] is NaN. The time values are
    integers, so the quotient is below 1 as a double exactly when it is
    below 1 as a rational. *)
Definition compareDateInDays (current : Z) (dateString : string) : option Q :=
  match Date_parse dateString with
  | None => None
  | Some date =>
      let diffMs := (current - date)%Z in
      Some (inject_Z diffMs / inject_Z (1000 * 60 * 60 * 24))%Q
  end.

(** [x < 1] on numbers: false on NaN. *)
Definition lt_one (x : option Q) : bool :=
  match x with
  | None => false
  | Some q => match (q ?= 1)%Q with Lt => true | _ => false end
  end.

(** The mappings the filter of [removeDayOldData] keeps at time [t]. *)
Definition filteredMappings (t : Z) (ms : list Mapping) : list Mapping :=
  List.filter (fun mapping => lt_one (compareDateInDays t (storedDate mapping))) ms.

(** The [try] block of [removeDayOldData]. *)
Definition sweep : M outcome :=
  config <- readConfigFile ;;
  ms <- mappings_of config ;;
  t <- now ;;
  let filtered := filteredMappings t ms in
  (if negb (length filtered =? length ms)%nat
   then writeConfigFile {| mappings := filtered |} ;;
        console_write (CleanedUp (Z.of_nat (length ms) - Z.of_nat (length filtered)))
   else ret tt) ;;
  ret Next.

Definition removeDayOldData (req : request) : M outcome :=
  try_catch sweep
    (fun err =>
       logError err ;;
       console_write (CleanupFailed err) ;;
       ret Next).

End Handlers.

End DynamicConfig.

(** ** Node's POSIX [path] module, as far as the server uses it *)
Module Path.
Open Scope string_scope.

Definition slash : ascii := "/"%char.
Definition dot : ascii := "."%char.

(** The segments between separators: [split "a//b"] is ["a"; ""; "b"]. *)
Fixpoint split (s : string) : list string :=
  match s with
  | EmptyString => [EmptyString]
  | String c rest =>
      if Ascii.eqb c slash then EmptyString :: split rest
      else match split rest with
           | seg :: segs => String c seg :: segs
           | [] => [String c EmptyString]
           end
  end.

Fixpoint concat_with (sep : string) (l : list string) : string :=
  match l with
  | [] => EmptyString
  | [x] => x
  | x :: rest => x ++ sep ++ concat_with sep rest
  end.

(** [normalizeString]: drops empty and [.] segments and resolves [..]
    against the segments kept so far ([kept], last one first). *)
Fixpoint resolve (allowAboveRoot : bool) (kept segs : list string) : list string :=
  match segs with
  | [] => rev kept
  | seg :: rest =>
      if String.eqb seg "" || String.eqb seg "." then resolve allowAboveRoot kept rest
      else if String.eqb seg ".." then
        match kept with
        | last :: before =>
            if String.eqb last ".."
            then resolve allowAboveRoot (if allowAboveRoot then ".." :: kept else kept) rest
            else resolve allowAboveRoot before rest
        | [] => resolve allowAboveRoot (if allowAboveRoot then [".."] else []) rest
        end
      else resolve allowAboveRoot (seg :: kept) rest
  end.

Definition first_is (c : ascii) (s : string) : bool :=
  match s with
  | String c' _ => Ascii.eqb c' c
  | EmptyString => false
  end.

Fixpoint last_is (c : ascii) (s : string) : bool :=
  match s with
  | EmptyString => false
  | String c' EmptyString => Ascii.eqb c' c
  | String _ rest => last_is c rest
  end.

(** [path.normalize] *)
Definition normalize (path : string) : string :=
  if String.eqb path "" then "."
  else
    let isAbsolute := first_is slash path in
    let trailingSeparator := last_is slash path in
    let p := concat_with "/" (resolve (negb isAbsolute) [] (split path)) in
    if String.eqb p ""
    then (if isAbsolute then "/" else if trailingSeparator then "./" else ".")
    else
      let p := if trailingSeparator then p ++ "/" else p in
      if isAbsolute then "/" ++ p else p.

(** [path.join(...args)] *)
Definition join (args : list string) : string :=
  match List.filter (fun a => negb (String.eqb a "")) args with
  | [] => "."
  | parts => normalize (concat_with "/" parts)
  end.

(** The index of the last [.] of [s], if any. *)
Fixpoint last_dot (s : string) : option nat :=
  match s with
  | EmptyString => None
  | String c rest =>
      match last_dot rest with
      | Some i => Some (S i)
      | None => if Ascii.eqb c dot then Some O else None
      end
  end.

(** [path.extname]: the suffix of the last segment from its last dot on;
    empty when there is no dot, when the dot starts the segment, and for [..]. *)
Definition extname (path : string) : string :=
  let base := List.last (List.filter (fun s => negb (String.eqb s "")) (split path)) "" in
  match last_dot base with
  | None | Some O => ""
  | Some i => if String.eqb base ".." then "" else String.substring i (String.length base - i) base
  end.

End Path.

(** ** The static-file route of the server's entry file *)
Module Server.
Import Js Rt.
Open Scope string_scope.
Open Scope js_scope.

Definition MIME_TYPES : list (string * string) :=
  [(".html", "text/html"); (".css", "text/css"); (".js", "text/javascript");
   (".json", "application/json"); (".png", "image/png"); (".jpg", "image/jpeg");
   (".jpeg", "image/jpeg"); (".svg", "image/svg+xml"); (".gif", "image/gif");
   (".ico", "image/x-icon"); (".woff", "font/woff"); (".woff2", "font/woff2");
   (".ttf", "font/ttf")].

Fixpoint mime_type (ext : string) (table : list (string * string)) : option string :=
  match table with
  | [] => None
  | (e, t) :: rest => if String.eqb e ext then Some t else mime_type ext rest
  end.

Section Static.

(** [__dirname] of the entry file. *)
Variable dirname : string.

Definition PUBLIC_DIR : string := Path.join [dirname; "public"].

(** [path.join(PUBLIC_DIR, req.params.filename || "index.html")], where
    [param] is [req.params.filename]: [None] on the route [/]. *)
Definition filePath (param : option string) : string :=
  let filename :=
    match param with
    | Some f => if String.eqb f "" then "index.html" else f
    | None => "index.html"
    end in
  Path.join [PUBLIC_DIR; filename].

Definition serveStaticFile (param : option string) : M outcome :=
  try_catch
    (let filePath := filePath param in
     if negb (startsWith filePath PUBLIC_DIR)
     then ret (Replied 403 (Json (JObj [("error", JStr "Forbidden")])))
     else
       data <- readFile filePath ;;
       let ext := toLowerCase (Path.extname filePath) in
       let contentType :=
         match mime_type ext MIME_TYPES with
         | Some t => t
         | None => "application/octet-stream"
         end in
       ret (Replied 200 (Raw contentType data)))
    (fun err =>
       if has_code err "ENOENT"
       then ret (Replied 404 (Json (JObj [("error", JStr "File not found")])))
       else ret (NextErr err)).

End Static.

(** The resolved path [p] is the directory [dir] or lies below it. *)
Definition inside (dir p : string) : bool :=
  String.eqb p dir || String.prefix (dir ++ "/") p.

End Server.

(** ** A concrete runtime

    An instance of the runtime parameters, used to run the handlers on
    concrete requests: a reader for JSON text without escapes, fractions or
    exponents, the date-time format [YYYY-MM-DDTHH:mm:ss.sssZ] that
    [toISOString] writes (years 0000 to 9999), and [encodeURIComponent] on
    strings of code units below 256, none of which is a surrogate. *)
Module Runtime.
Import Js.
Open Scope string_scope.
Open Scope Z_scope.

Definition quote : ascii := ascii_of_nat 34.

Definition is_digit (c : ascii) : bool :=
  let n := nat_of_ascii c in ((48 <=? n)%nat && (n <=? 57)%nat).

Definition digit_value (c : ascii) : Z := Z.of_nat (nat_of_ascii c) - 48.

Definition json_space (c : ascii) : bool :=
  existsb (Nat.eqb (nat_of_ascii c)) [9; 10; 13; 32]%nat.

Fixpoint skip_space (s : string) : string :=
  match s with
  | String c rest => if json_space c then skip_space rest else s
  | EmptyString => s
  end.

(** The digits at the head of [s], read onto [acc], and what follows them. *)
Fixpoint digits (acc : Z) (s : string) : Z * string :=
  match s with
  | String c rest => if is_digit c then digits (10 * acc + digit_value c) rest else (acc, s)
  | EmptyString => (acc, s)
  end.

(** The characters up to the closing quote, and what follows it. *)
Fixpoint quoted (s : string) : option (string * string) :=
  match s with
  | EmptyString => None
  | String c rest =>
      if Ascii.eqb c quote then Some (EmptyString, rest)
      else if Ascii.eqb c "\"%char || (nat_of_ascii c <? 32)%nat then None
      else match quoted rest with
           | Some (body, after) => Some (String c body, after)
           | None => None
           end
  end.

Definition starts_with_digit (s : string) : bool :=
  match s with
  | String d _ => is_digit d
  | EmptyString => false
  end.

(** An integer literal without a leading zero, below 2^53 so that the
    double is exact. *)
Definition number (negative : bool) (s : string) : option (jsval * string) :=
  match s with
  | String c rest =>
      if is_digit c && negb (Ascii.eqb c "0"%char && starts_with_digit rest) then
        let '(n, after) := digits 0 s in
        let x := PrimFloat.of_uint63 (Uint63.of_Z n) in
        if n <? 2 ^ 53 then Some (JNum (if negative then PrimFloat.opp x else x), after)
        else None
      else None
  | EmptyString => None
  end.

Definition literal (word : string) (v : jsval) (s : string) : option (jsval * string) :=
  if String.prefix word s
  then Some (v, String.substring (String.length word) (String.length s - String.length word) s)
  else None.

Section Composite.

(** The reader for the values nested one level down. *)
Variable value : string -> option (jsval * string).

(** After [[] and a first element: [, element]* []]. *)
Fixpoint elements (fuel : nat) (acc : list jsval) (s : string) : option (jsval * string) :=
  match fuel with
  | O => None
  | S fuel' =>
      match skip_space s with
      | String "]" after => Some (JArr (rev acc), after)
      | String "," after =>
          match value after with
          | Some (v, after') => elements fuel' (v :: acc) after'
          | None => None
          end
      | _ => None
      end
  end.

(** ["name" : value] *)
Definition member (s : string) : option ((string * jsval) * string) :=
  match skip_space s with
  | String c after =>
      if Ascii.eqb c quote then
        match quoted after with
        | Some (name, after') =>
            match skip_space after' with
            | String ":" after'' =>
                match value after'' with
                | Some (v, rest) => Some ((name, v), rest)
                | None => None
                end
            | _ => None
            end
        | None => None
        end
      else None
  | EmptyString => None
  end.

(** A later member of the same name replaces the earlier one. *)
Definition define (m : string * jsval) (fields : list (string * jsval)) : list (string * jsval) :=
  if existsb (fun f => String.eqb (fst f) (fst m)) fields
  then map (fun f => if String.eqb (fst f) (fst m) then m else f) fields
  else (fields ++ [m])%list.

Fixpoint members (fuel : nat) (acc : list (string * jsval)) (s : string)
  : option (jsval * string) :=
  match fuel with
  | O => None
  | S fuel' =>
      match skip_space s with
      | String "}" after => Some (JObj acc, after)
      | String "," after =>
          match member after with
          | Some (m, after') => members fuel' (define m acc) after'
          | None => None
          end
      | _ => None
      end
  end.

End Composite.

Fixpoint value (fuel : nat) (s : string) : option (jsval * string) :=
  match fuel with
  | O => None
  | S fuel' =>
      match skip_space s with
      | String "[" after =>
          match skip_space after with
          | String "]" after' => Some (JArr [], after')
          | _ => match value fuel' after with
                 | Some (v, after') => elements (value fuel') (String.length s) [v] after'
                 | None => None
                 end
          end
      | String "{" after =>
          match skip_space after with
          | String "}" after' => Some (JObj [], after')
          | _ => match member (value fuel') after with
                 | Some (m, after') => members (value fuel') (String.length s) [m] after'
                 | None => None
                 end
          end
      | String "-" after => number true after
      | String c after as s' =>
          if Ascii.eqb c quote then
            match quoted after with
            | Some (str, after') => Some (JStr str, after')
            | None => None
            end
          else if is_digit c then number false s'
          else match literal "null" JNull s' with
               | Some r => Some r
               | None =>
                   match literal "true" (JBool true) s' with
                   | Some r => Some r
                   | None => literal "false" (JBool false) s'
                   end
               end
      | EmptyString => None
      end
  end.

(** [JSON.parse]: one value, white space around it, nothing else. *)
Definition JSON_parse (s : string) : option jsval :=
  match value (S (String.length s)) s with
  | Some (v, rest) => if String.eqb (skip_space rest) "" then Some v else None
  | None => None
  end.

(** *** URI components *)

Definition hex_digit (n : nat) : ascii :=
  if (n <? 10)%nat then ascii_of_nat (48 + n) else ascii_of_nat (55 + n).

Definition percent (n : nat) : string :=
  String "%" (String (hex_digit (n / 16)) (String (hex_digit (n mod 16)) EmptyString)).

(** The characters [encodeURIComponent] leaves alone: letters, digits and
    [- _ . ! ~ * ' ( )]. *)
Definition uri_unreserved (c : ascii) : bool :=
  let n := nat_of_ascii c in
  ((48 <=? n)%nat && (n <=? 57)%nat) || ((65 <=? n)%nat && (n <=? 90)%nat)
  || ((97 <=? n)%nat && (n <=? 122)%nat)
  || existsb (Nat.eqb n) [45; 95; 46; 33; 126; 42; 39; 40; 41]%nat.

(** The escaped text: a code unit from 128 to 255 is escaped as the two
    bytes of its UTF-8 form. *)
Fixpoint escaped (s : string) : string :=
  match s with
  | EmptyString => EmptyString
  | String c rest =>
      let n := nat_of_ascii c in
      (if uri_unreserved c then String c EmptyString
       else if (n <? 128)%nat then percent n
       else percent (192 + n / 64) ++ percent (128 + n mod 64))
      ++ escaped rest
  end.

(** [encodeURIComponent]: it finds no lone surrogate and does not throw. *)
Definition encodeURIComponent (s : string) : option string := Some (escaped s).

(** *** Dates *)

(** Days since 1970-01-01 of a civil date, and back. *)
Definition days_from_civil (y m d : Z) : Z :=
  let y := if m <=? 2 then y - 1 else y in
  let era := y / 400 in
  let yoe := y - era * 400 in
  let doy := (153 * (if 2 <? m then m - 3 else m + 9) + 2) / 5 + d - 1 in
  let doe := yoe * 365 + yoe / 4 - yoe / 100 + doy in
  era * 146097 + doe - 719468.

Definition civil_from_days (z : Z) : Z * Z * Z :=
  let z := z + 719468 in
  let era := z / 146097 in
  let doe := z - era * 146097 in
  let yoe := (doe - doe / 1460 + doe / 36524 - doe / 146096) / 365 in
  let doy := doe - (365 * yoe + yoe / 4 - yoe / 100) in
  let mp := (5 * doy + 2) / 153 in
  let d := doy - (153 * mp + 2) / 5 + 1 in
  let m := if mp <? 10 then mp + 3 else mp - 9 in
  ((if m <=? 2 then yoe + era * 400 + 1 else yoe + era * 400), m, d).

Definition digit_char (n : Z) : ascii := ascii_of_nat (48 + Z.to_nat n).

(** [n] in [width] decimal digits, zero padded. *)
Fixpoint padded (width : nat) (n : Z) : string :=
  match width with
  | O => EmptyString
  | S w => padded w (n / 10) ++ String (digit_char (n mod 10)) EmptyString
  end.

Definition toISOString (t : Z) : string :=
  let '(y, m, d) := civil_from_days (t / 86400000) in
  let ms := t mod 86400000 in
  padded 4 y ++ "-" ++ padded 2 m ++ "-" ++ padded 2 d ++ "T"
  ++ padded 2 (ms / 3600000) ++ ":" ++ padded 2 (ms / 60000 mod 60) ++ ":"
  ++ padded 2 (ms / 1000 mod 60) ++ "." ++ padded 3 (ms mod 1000) ++ "Z".

(** Exactly [width] digits at the head of [s]. *)
Fixpoint field (width : nat) (acc : Z) (s : string) : option (Z * string) :=
  match width with
  | O => Some (acc, s)
  | S w =>
      match s with
      | String c rest => if is_digit c then field w (10 * acc + digit_value c) rest else None
      | EmptyString => None
      end
  end.

Definition sep (c : ascii) (s : string) : option string :=
  match s with
  | String c' rest => if Ascii.eqb c c' then Some rest else None
  | EmptyString => None
  end.

Definition opt_bind {A B : Type} (o : option A) (k : A -> option B) : option B :=
  match o with
  | Some a => k a
  | None => None
  end.

(** [new Date(s).getTime()] for the format above; any other text is an
    invalid date. *)
Definition Date_parse (s : string) : option Z :=
  opt_bind (field 4 0 s) (fun '(y, s) => opt_bind (sep "-" s) (fun s =>
  opt_bind (field 2 0 s) (fun '(m, s) => opt_bind (sep "-" s) (fun s =>
  opt_bind (field 2 0 s) (fun '(d, s) => opt_bind (sep "T" s) (fun s =>
  opt_bind (field 2 0 s) (fun '(h, s) => opt_bind (sep ":" s) (fun s =>
  opt_bind (field 2 0 s) (fun '(mi, s) => opt_bind (sep ":" s) (fun s =>
  opt_bind (field 2 0 s) (fun '(sec, s) => opt_bind (sep "." s) (fun s =>
  opt_bind (field 3 0 s) (fun '(ms, s) => opt_bind (sep "Z" s) (fun s =>
    if String.eqb s "" && (1 <=? m) && (m <=? 12) && (1 <=? d) && (h <? 24)
       && (mi <? 60) && (sec <? 60)
       && (let '(y', m', d') := civil_from_days (days_from_civil y m d) in
           (y' =? y) && (m' =? m) && (d' =? d))
    then Some (days_from_civil y m d * 86400000 + h * 3600000 + mi * 60000 + sec * 1000 + ms)
    else None)))))))))))))).

End Runtime.

(** ** The vocabulary of the properties *)

Import Js Store Rt DynamicConfig.
Open Scope string_scope.
Open Scope Z_scope.

(** No pending fault rejects a write. *)
Definition calm (fs : list (option string)) : bool :=
  forallb (fun f => match f with None => true | Some _ => false end) fs.

(** The store file holding the mappings [ms]: its text reads as [ms]. *)
Definition holds (ms : list Mapping) : file :=
  Content (Json_text (Config {| mappings := ms |})).

(** The store file as [writeConfigFile] leaves it when handed [ms]. *)
Definition stored (ms : list Mapping) : file :=
  Content (JSON_stringify {| mappings := ms |}).

(** [readConfigFile] succeeds in [w] and returns the mappings [ms]. *)
Definition loads (w : world) (ms : list Mapping) : Prop :=
  fst (readConfigFile w) = inr (Config {| mappings := ms |}).

(** The request [POST /setData] with the body [{ key: k, data: v }]. *)
Definition put_request (k v : jsval) : request :=
  {| body := JObj [("key", k); ("data", v)]; query := JObj [];
     forwarded_for := JUndefined; remote_address := JUndefined; ip := JUndefined |}.

(** The request [GET /get?id=...]. *)
Definition get_request (id : jsval) : request :=
  {| body := JObj []; query := JObj [("id", id)];
     forwarded_for := JUndefined; remote_address := JUndefined; ip := JUndefined |}.

(** A world with the given store file, clock and pending faults, and
    nothing logged yet. *)
Definition world_of (f : file) (t : Z) (fs : list (option string)) : world :=
  {| config_file := f; error_log := []; console := []; faults := fs; clock := t;
     disk := fun _ => NoEntry; reads := [] |}.

(** The value [parsedData] that [setDynamicConfig] stores for [data]:
    what [JSON.parse] returns for a string, the value itself otherwise. *)
Definition payload_of (JSON_parse : string -> option jsval) (v : jsval) : option jsval :=
  match v with
  | JStr s => JSON_parse s
  | _ => Some v
  end.

(** The mapping [setDynamicConfig] builds for the key [k] and the parsed
    data [d] at time [t], and the mappings it then writes. *)
Definition new_mapping (toISOString : Z -> string) (k : string) (d : jsval) (t : Z) : Mapping :=
  {| key := trim k; data := d; storedDate := toISOString t |}.

Definition put_store (toISOString : Z -> string) (k : string) (d : jsval) (t : Z)
  (ms : list Mapping) : list Mapping :=
  let i := findIndex (fun x => String.eqb (key x) k) ms in
  if i =? -1 then (ms ++ [new_mapping toISOString k d t])%list
  else <[Z.to_nat i := new_mapping toISOString k d t]> ms.

(** The three replies of the two handlers that are not failures of
    validation; [encoded] is what [encodeURIComponent] makes of the trimmed key. *)
Definition saved (k encoded : string) : outcome :=
  Replied 200 (Json (JObj
    [("success", JBool true);
     ("message", JStr "Data saved successfully");
     ("key", JStr (trim k));
     ("accessUrl", JStr ("/getData?id=" ++ encoded))])).

Definition found (m : Mapping) : outcome :=
  Replied 200 (Json (JObj
    [("success", JBool true);
     ("key", JStr (key m));
     ("data", data m);
     ("storedDate", JStr (storedDate m))])).

Definition not_found : outcome :=
  failure 404 "Data not found. Please check the ID and try again.".

(** ** Sample requests and worlds *)
Module Sample.

Definition put :=
  setDynamicConfig Runtime.JSON_parse Runtime.toISOString Runtime.encodeURIComponent.
Definition get := getDynamicConfigData Runtime.toISOString.
Definition expire := removeDayOldData Runtime.Date_parse Runtime.toISOString.

(** 2026-11-02T12:00:00.000Z *)
Definition noon : Z := 1793620800000.

Definition hour : Z := 3600000.

(** The JSON text of an object with the member [a] equal to 1. *)
Definition text_a1 : string :=
  "{" ++ String Runtime.quote "a" ++ String Runtime.quote ":1}".

Definition value_a1 : jsval := JObj [("a", JNum 1%float)].

(** An empty store at noon, no fault pending. *)
Definition fresh : world := world_of (holds []) noon [].

(** A mapping stored under [key] at the time [t]. *)
Definition stored_at (key : string) (d : jsval) (t : Z) : Mapping :=
  {| Store.key := key; data := d; storedDate := Runtime.toISOString t |}.

(** A store that already has the key [a], written five hours before noon. *)
Definition with_a : world :=
  world_of (holds [stored_at "a" (JNum 1%float) (noon - 5 * hour)]) noon [].

(** A store with one mapping of each age: 23 hours, 25 hours, a time stamp
    that does not parse, and one an hour ahead of the clock. *)
Definition aged : world :=
  world_of (holds [stored_at "h23" JNull (noon - 23 * hour);
                   stored_at "h25" JNull (noon - 25 * hour);
                   {| key := "bad"; data := JNull; storedDate := "yesterday" |};
                   stored_at "ahead" JNull (noon + hour)])
           noon [].

Definition any_request : request := get_request JUndefined.

(** [POST /setData] without a body, which leaves [req.body] undefined, and
    with the body [{}]. *)
Definition no_body : request :=
  {| body := JUndefined; query := JObj [];
     forwarded_for := JUndefined; remote_address := JUndefined; ip := JUndefined |}.

Definition empty_body : request :=
  {| body := JObj []; query := JObj [];
     forwarded_for := JUndefined; remote_address := JUndefined; ip := JUndefined |}.

(** A deployment in [/srv/app] with a directory [public-old] beside [public]. *)
Definition site : world :=
  {| config_file := Absent; error_log := []; console := []; faults := []; clock := noon;
     disk := fun p => if String.eqb p "/srv/app/public-old/keys.json"
                      then Bytes "secret" else NoEntry;
     reads := [] |}.

End Sample.

(** ** The clock between requests *)

(** The world [w] seen at the time [t]. *)
Definition set_clock (t : Z) (w : world) : world :=
  {| config_file := config_file w; error_log := error_log w; console := console w;
     faults := faults w; clock := t; disk := disk w; reads := reads w |}.

(** The [catch] block of a handler of utils/setdynamicConfig.js: log the
    error, then reply 500 with [message]. *)
Definition caught (toISOString : Z -> string) (message : string) (e : js_error) : M outcome :=
  bind (logError toISOString e) (fun _ => ret (failure 500 message)).

(** ** [returnLogs] of utils/setdynamicConfig.js *)
Module Logs.
Open Scope js_scope.

Section ReturnLogs.

Variable toISOString : Z -> string.

(** [__dirname] of utils/setdynamicConfig.js. *)
Variable dirname : string.

Definition LOGGER_PATH : string := Path.join [dirname; ".."; "logger.txt"].

(** [res.status(200).send(data)] of a string is sent as HTML text. *)
Definition returnLogs (req : request) : M outcome :=
  try_catch
    (data <- readFile LOGGER_PATH ;;
     ret (Replied 200 (Raw "text/html; charset=utf-8" data)))
    (fun err =>
       if has_code err "ENOENT"
       then ret (failure 404 "Log file not found")
       else logError toISOString err ;;
            ret (failure 500 "Error reading log file")).

End ReturnLogs.

End Logs.

(** ** More vocabulary *)



(** The pending faults of [w'] are what is left of those of [w]. *)
Definition later (w w' : world) : Prop :=
  exists used, faults w = (used ++ faults w')%list.

(** What a [catch] block that logs and replies 500 makes of the world [w]
    the handler started in: the error is appended, with the time stamp, to
    the error log, unless a pending fault of [w] rejects the append, which
    then is the last thing printed on the console. *)
Definition reported (toISOString : Z -> string) (e : js_error) (w w' : world) : Prop :=
  error_log w' = (error_log w ++ [{| stamp := toISOString (clock w); logged := e |}])%list
  \/ (error_log w' = error_log w
      /\ exists code, In (Some code) (faults w)
                      /\ last (console w') = Some (LogWriteFailed (FsError code))).


(** ** logger.js *)
Module Logger.
Open Scope js_scope.

(** What the logger reads of the request: [req.method], [req.url],
    [req.get("User-Agent")], [req.ip] and [req.connection.remoteAddress];
    [None] is [undefined]. *)
Record client := {
  method : string;
  url : string;
  userAgent : option string;
  address : option string;
  remoteAddress : option string }.

(** What a ["finish"] listener of the logger has captured. *)
Record listener := { on_method : string; on_url : string; responseTime : Z }.

(** A call of [fs.appendFile] that was started and is not awaited. *)
Record append := { target : string; line : string }.

(** The world, what [console.error] of logger.js and of the server's error
    handler has printed, the listeners registered on the response of the
    request being handled, and the appends in flight. *)
Record process := {
  os : world;
  stderr : list js_error;
  listeners : list listener;
  inflight : list append }.

Definition P (A : Type) : Type := process -> (js_error + A) * process.

Definition pret {A : Type} (a : A) : P A := fun p => (inr a, p).

Definition pbind {A B : Type} (m : P A) (k : A -> P B) : P B :=
  fun p => match m p with
           | (inl e, p') => (inl e, p')
           | (inr a, p') => k a p'
           end.

(** A computation on the world, run in the process. *)
Definition lift {A : Type} (m : M A) : P A :=
  fun p => let (r, w) := m (os p) in
           (r, {| os := w; stderr := stderr p; listeners := listeners p;
                  inflight := inflight p |}).

(** [console.error(e)] *)
Definition print (e : js_error) : P unit :=
  fun p => (inr tt, {| os := os p; stderr := stderr p ++ [e]; listeners := listeners p;
                       inflight := inflight p |}).

(** A request comes in: its response has no listener yet. *)
Definition new_response : P unit :=
  fun p => (inr tt, {| os := os p; stderr := stderr p; listeners := [];
                       inflight := inflight p |}).

(** [res.on("finish", l)] *)
Definition listen (l : listener) : P unit :=
  fun p => (inr tt, {| os := os p; stderr := stderr p; listeners := listeners p ++ [l];
                       inflight := inflight p |}).

(** [fs.appendFile(path, text).catch(console.error)], not awaited: the
    append is in flight when the call returns. *)
Definition start (a : append) : P unit :=
  fun p => (inr tt, {| os := os p; stderr := stderr p; listeners := listeners p;
                       inflight := inflight p ++ [a] |}).

Definition set_disk (d : string -> disk_entry) (w : world) : world :=
  {| config_file := config_file w; error_log := error_log w; console := console w;
     faults := faults w; clock := clock w; disk := d; reads := reads w |}.

(** The text of a file, empty when it does not exist. *)
Definition text_of (e : disk_entry) : string :=
  match e with
  | Bytes b => b
  | _ => ""
  end.

(** What [fs.appendFile(path, text)] does when it runs: the file is created
    when it is missing. *)
Definition appendFile (path text : string) : M unit :=
  fun w => match disk w path with
           | Refuses code => (inl (FsError code), w)
           | entry =>
               fs_write (fun w' => set_disk (fun p => if String.eqb p path
                                                      then Bytes (text_of entry ++ text)
                                                      else disk w' p) w') w
           end.

(** The [n]-th append in flight completes: it is done, or it is rejected
    and [console.error] prints the rejection. *)
Definition settle (n : nat) : P unit :=
  fun p =>
    match inflight p !! n with
    | None => (inr tt, p)
    | Some a =>
        let (r, w) := appendFile (target a) (line a) (os p) in
        (inr tt,
         {| os := w;
            stderr := match r with inl e => stderr p ++ [e] | inr _ => stderr p end;
            listeners := listeners p;
            inflight := delete n (inflight p) |})
    end.

(** The appends of [order] complete one after the other, each named by its
    position among those then in flight. *)
Fixpoint settle_each (order : list nat) : P unit :=
  match order with
  | [] => pret tt
  | n :: rest => pbind (settle n) (fun _ => settle_each rest)
  end.

Fixpoint spaces (n : nat) : string :=
  match n with
  | O => ""
  | S n' => String " " (spaces n')
  end.

(** [s.padEnd(n)] *)
Definition padEnd (n : nat) (s : string) : string :=
  s ++ spaces (n - String.length s).

(** [a || b] for a header or address that may be missing. *)
Definition or_text (a : option string) (b : string) : string :=
  match a with
  | Some s => if String.eqb s "" then b else s
  | None => b
  end.

(** An integer in a template literal. *)
Definition decimal (z : Z) : string := DecimalString.NilZero.string_of_int (Z.to_int z).

Definition newline : string := String (ascii_of_nat 10) "".

Section Middleware.

Variable toISOString : Z -> string.

(** The three pictographs of the log lines, which lie outside the code
    units 0..255: the globe of an access line, the marks of a failed and of
    a successful response. *)
Variables globe cross tick : string.

(** [process.cwd()], against which [./logger.txt] and [./performance.txt]
    are resolved. *)
Variable cwd : string.

Definition logger_txt : string := Path.join [cwd; "./logger.txt"].
Definition performance_txt : string := Path.join [cwd; "./performance.txt"].

Definition logEntry (c : client) (timestamp : string) : string :=
  globe ++ " | " ++ padEnd 6 (method c) ++ " | " ++ padEnd 30 (url c) ++ " | "
  ++ timestamp ++ " | "
  ++ padEnd 15 (or_text (address c) (or_text (remoteAddress c) "Unknown")) ++ " | "
  ++ or_text (userAgent c) "Unknown" ++ " |" ++ newline.

Definition perfEntry (l : listener) (statusCode duration : Z) : string :=
  (if 400 <=? statusCode then cross else tick) ++ " | " ++ on_method l ++ " | "
  ++ on_url l ++ " | " ++ decimal statusCode ++ " | " ++ decimal duration ++ "ms |"
  ++ newline.

(** The callback of [res.on("finish", ...)]. *)
Definition finished (l : listener) (statusCode : Z) : P unit :=
  pbind (lift now) (fun t =>
  let duration := t - responseTime l in
  start {| target := performance_txt; line := perfEntry l statusCode duration |}).

Definition logger (c : client) : P outcome :=
  pbind (lift now) (fun t =>
  let timestamp := toISOString t in
  let method := padEnd 6 (method c) in
  let url := padEnd 30 (url c) in
  let responseTime := t in
  pbind (start {| target := logger_txt; line := logEntry c timestamp |}) (fun _ =>
  pbind (listen {| on_method := method; on_url := url; responseTime := responseTime |})
    (fun _ => pret Next))).

(** The response emits ["finish"]: every listener runs. *)
Fixpoint emit_finish (ls : list listener) (statusCode : Z) : P unit :=
  match ls with
  | [] => pret tt
  | l :: rest => pbind (finished l statusCode) (fun _ => emit_finish rest statusCode)
  end.

End Middleware.

End Logger.

(** ** The application of the server's entry file *)
Module App.
Import Logger.

(** The route Express matched for the request: [POST /setData], [GET /get],
    [GET /getLogs], [GET /], [GET /:filename] with its parameter, or none. *)
Inductive route :=
| SetData
| GetData
| GetLogs
| Root
| File (filename : string)
| Unmatched.

(** A request on its way through the application: what the handlers and
    the logger read of it, the route Express matched, the appends in flight
    that complete before the route's handler runs (an append completes in
    one step; the others stay in flight), and the time from the arrival of
    the request, when the chain runs, to the finish of its response. *)
Record exchange := {
  request_of : request;
  client_of : client;
  matched : route;
  completed : list nat;
  took : Z }.

Section Application.

Variable JSON_parse : string -> option jsval.
Variable Date_parse : string -> option Z.
Variable toISOString : Z -> string.
Variable encodeURIComponent : string -> option string.
Variables globe cross tick : string.
Variable cwd : string.

(** [__dirname] of the entry file, [process.env.NODE_ENV] and [err.message]. *)
Variable dirname : string.
Variable NODE_ENV : option string.
Variable message_of : js_error -> string.

(** [__dirname] of the module required as [./utils/setdynamicConfig]. *)
Definition utils : string := Path.join [dirname; "utils"].

(** [app.use((err, req, res, next) => ...)] *)
Definition errorHandler (err : js_error) : P outcome :=
  pbind (print err) (fun _ =>
  pret (Replied 500 (Json (JObj
          [("success", JBool false);
           ("message", JStr "Internal server error");
           ("error", match NODE_ENV with
                     | Some env => if String.eqb env "development"
                                   then JStr (message_of err) else JUndefined
                     | None => JUndefined
                     end)])))).

(** [app.use((req, res) => ...)] *)
Definition notFound : outcome := failure 404 "Route not found".

Definition handler (r : route) (req : request) : M outcome :=
  match r with
  | SetData => setDynamicConfig JSON_parse toISOString encodeURIComponent req
  | GetData => getDynamicConfigData toISOString req
  | GetLogs => Logs.returnLogs toISOString utils req
  | Root => Server.serveStaticFile dirname None
  | File filename => Server.serveStaticFile dirname (Some filename)
  | Unmatched => ret Next
  end.

(** What follows a middleware or handler: [next()] goes on with [rest],
    [next(err)] goes to the error handler, a response ends the chain. *)
Definition and_then (m : P outcome) (rest : P outcome) : P outcome :=
  pbind m (fun o =>
  match o with
  | Next => rest
  | NextErr e => errorHandler e
  | Replied _ _ => pret o
  end).

(** The chain from [removeDayOldData] on: the sweep, the logger, the
    matched route, and the two fallbacks. *)
Definition respond (x : exchange) : P outcome :=
  and_then (lift (removeDayOldData Date_parse toISOString (request_of x)))
    (and_then (logger toISOString globe cwd (client_of x))
       (pbind (settle_each (completed x)) (fun _ =>
        and_then (lift (handler (matched x) (request_of x)))
          (pret notFound)))).

Definition advance (dt : Z) : P unit :=
  lift (fun w => (inr tt, set_clock (clock w + dt) w)).

(** The response is sent and, [took x] milliseconds after the request came
    in, emits ["finish"]. *)
Definition app (x : exchange) : P outcome :=
  pbind new_response (fun _ =>
  pbind (respond x) (fun o =>
  pbind (advance (took x)) (fun _ =>
  pbind (fun p => emit_finish cross tick cwd (listeners p)
                    (match status_of o with Some s => s | None => 200 end) p) (fun _ =>
  pret o)))).

(** A reply with one of the five statuses of the application whose body,
    when the status is 500, has no [error] member. *)
Definition plain (o : outcome) : Prop :=
  match o with
  | Replied s pl =>
      In s [200; 400; 403; 404; 500]
      /\ (s = 500 -> exists body, pl = Json body /\ get_prop "error" body = JUndefined)
  | _ => True
  end.

(** A reply of the application: one of the five statuses, and [plain] unless
    the server runs in development mode. *)
Definition settled_reply (o : outcome) : Prop :=
  exists s pl, o = Replied s pl /\ In s [200; 400; 403; 404; 500]
               /\ (NODE_ENV <> Some "development" -> plain o).

End Application.

End App.

(** A computation that leaves the clock alone. *)
Definition steady {A : Type} (m : M A) : Prop := forall w, clock (snd (m w)) = clock w.

(** ** A sample deployment *)
Module Demo.
Import Logger App.

(** The UTF-8 bytes of the three pictographs. *)
Definition bytes (l : list nat) : string :=
  fold_right (fun n s => String (ascii_of_nat n) s) "" l.
Definition globe : string := bytes [240; 159; 140; 144]%nat.
Definition cross : string := bytes [226; 157; 140]%nat.
Definition tick : string := bytes [226; 156; 133]%nat.

Definition browser : client :=
  {| method := "GET"; url := "/getLogs"; userAgent := Some "curl/8.5.0";
     address := Some "::1"; remoteAddress := None |}.

(** A process with the given files and nothing in flight. *)
Definition process_of (w : world) : process :=
  {| os := w; stderr := []; listeners := []; inflight := [] |}.

(** [/srv/app/public/docs] is a directory: reading it fails with EISDIR. *)
Definition with_directory : world :=
  {| config_file := holds []; error_log := []; console := []; faults := [];
     clock := Sample.noon;
     disk := fun p => if String.eqb p "/srv/app/public/docs"
                      then Refuses "EISDIR" else NoEntry;
     reads := [] |}.

(** [/srv/app/logger.txt] holds one earlier line. *)
Definition with_log : world :=
  {| config_file := holds []; error_log := []; console := []; faults := [];
     clock := Sample.noon;
     disk := fun p => if String.eqb p "/srv/app/logger.txt"
                      then Bytes "earlier line" else NoEntry;
     reads := [] |}.

(** The message of an error: for a rejected [fs] call it starts with the
    code. *)
Definition message_of (e : js_error) : string :=
  match e with
  | FsError code => code ++ ": the call was rejected"
  | SyntaxError => "Unexpected token"
  | TypeError => "Cannot destructure"
  | URIError => "URI malformed"
  end.

(** The server started from [/srv/app], where its entry file lies, in
    production mode. *)
Definition application : exchange -> P outcome :=
  app Runtime.JSON_parse Runtime.Date_parse Runtime.toISOString Runtime.encodeURIComponent
    globe cross tick "/srv/app" "/srv/app" (Some "production") message_of.

Definition get_docs : exchange :=
  {| request_of := Sample.any_request; client_of := browser; matched := File "docs";
     completed := [0%nat]; took := 12 |}.

End Demo.

(** * Properties *)

(** ** Arrays: [findIndex], [find], assignment by index and [push] *)
Section Arrays.

Context {A : Type} (p : A -> bool).

Lemma findIndex_bounds (l : list A) :
  -1 <= findIndex p l < Z.of_nat (length l).
Proof.
  induction l as [|x l IH]; simpl; [lia|].
  destruct (p x); [lia|].
  destruct (findIndex p l =? -1) eqn:E; lia.
Qed.

Lemma findIndex_absent (l : list A) :
  findIndex p l = -1 <-> (forall x, In x l -> p x = false).
Proof.
  induction l as [|x l IH]; simpl.
  - split; [intros _ y []|reflexivity].
  - destruct (p x) eqn:Px.
    + split; [lia|]. intros H. specialize (H x (or_introl eq_refl)). congruence.
    + pose proof (findIndex_bounds l) as B.
      destruct (findIndex p l =? -1) eqn:E.
      * apply Z.eqb_eq in E. split; [|reflexivity].
        intros _ y [<-|Hy]; [assumption|]. now apply IH.
      * apply Z.eqb_neq in E. split; [lia|].
        intros H. exfalso. apply E, IH. intros y Hy. apply H. now right.
  Qed.

(** [find] returns the element [findIndex] points at. *)
Lemma find_findIndex (l : list A) :
  List.find p l = (if findIndex p l =? -1 then None else l !! Z.to_nat (findIndex p l)).
Proof.
  induction l as [|x l IH]; simpl; [reflexivity|].
  destruct (p x); [reflexivity|].
  pose proof (findIndex_bounds l) as B. rewrite IH.
  destruct (findIndex p l =? -1) eqn:E; [reflexivity|].
  apply Z.eqb_neq in E.
  replace (findIndex p l + 1 =? -1) with false by (symmetry; apply Z.eqb_neq; lia).
  replace (Z.to_nat (findIndex p l + 1)) with (S (Z.to_nat (findIndex p l))) by lia.
  reflexivity.
Qed.

(** After [l[findIndex p l] = m] a search for [p] meets [m] first. *)
Lemma find_assigned (l : list A) (m : A) :
  findIndex p l <> -1 -> p m = true ->
  List.find p (<[Z.to_nat (findIndex p l) := m]> l) = Some m.
Proof.
  induction l as [|x l IH]; simpl; [congruence|]. intros Hi Pm.
  destruct (p x) eqn:Px; simpl; [now rewrite Pm|].
  pose proof (findIndex_bounds l) as B.
  destruct (findIndex p l =? -1) eqn:E; [congruence|].
  apply Z.eqb_neq in E.
  replace (Z.to_nat (findIndex p l + 1)) with (S (Z.to_nat (findIndex p l))) by lia.
  simpl. rewrite Px. now apply IH.
Qed.

(** After [l.push(m)], when nothing in [l] satisfies [p], a search meets [m]. *)
Lemma find_pushed (l : list A) (m : A) :
  findIndex p l = -1 -> p m = true -> List.find p (l ++ [m]) = Some m.
Proof.
  intros Hi Pm. pose proof (proj1 (findIndex_absent l) Hi) as Hall. clear Hi.
  induction l as [|x l IH]; simpl; [now rewrite Pm|].
  rewrite (Hall x (or_introl eq_refl)). apply IH. intros y Hy. apply Hall. now right.
Qed.

Lemma assigned_lookup (l : list A) (m : A) :
  findIndex p l <> -1 ->
  <[Z.to_nat (findIndex p l) := m]> l !! Z.to_nat (findIndex p l) = Some m.
Proof.
  intros Hi. pose proof (findIndex_bounds l) as B.
  apply list_lookup_insert_eq. lia.
Qed.

(** [findIndex] is the first index whose element satisfies [p]. *)
Lemma findIndex_first (l : list A) (i : nat) (x : A) :
  l !! i = Some x -> p x = true ->
  (forall j y, (j < i)%nat -> l !! j = Some y -> p y = false) ->
  findIndex p l = Z.of_nat i.
Proof.
  revert i. induction l as [|a l IH]; intros i Hi Px Hbefore; [discriminate|].
  destruct i as [|i]; simpl in *.
  - injection Hi as ->. now rewrite Px.
  - rewrite (Hbefore O a ltac:(lia) eq_refl).
    rewrite (IH i Hi Px).
    + destruct (Z.of_nat i =? -1) eqn:E; [apply Z.eqb_eq in E|]; lia.
    + intros j y Hj Hy. apply (Hbefore (S j) y); [lia|exact Hy].
Qed.

Lemma map_assign_same {B : Type} (f : A -> B) (l : list A) (i : nat) (x m : A) :
  l !! i = Some x -> f m = f x -> map f (<[i := m]> l) = map f l.
Proof.
  revert i. induction l as [|a l IH]; intros i Hi E; [discriminate|].
  destruct i as [|i]; simpl in *.
  - injection Hi as ->. now rewrite E.
  - f_equal. now apply IH.
Qed.

Lemma NoDup_push {B : Type} (l : list B) (b : B) :
  List.NoDup l -> ~ In b l -> List.NoDup (l ++ [b]).
Proof.
  induction l as [|a l IH]; simpl; intros Hn Hb.
  - constructor; [intros []|constructor].
  - inversion Hn as [|? ? Ha Hl]; subst. constructor.
    + rewrite in_app_iff. intros [H|[H|[]]]; [now apply Ha|]. apply Hb. now left.
    + apply IH; [exact Hl|]. intros H. apply Hb. now right.
Qed.
End Arrays.

(** ** What [JSON.stringify] writes *)

Section JsvalInduction.

Variable P : jsval -> Prop.
Hypothesis on_undefined : P JUndefined.
Hypothesis on_null : P JNull.
Hypothesis on_bool : forall b, P (JBool b).
Hypothesis on_num : forall x, P (JNum x).
Hypothesis on_str : forall s, P (JStr s).
Hypothesis on_arr : forall items, Forall P items -> P (JArr items).
Hypothesis on_obj : forall fields, Forall (fun f => P (snd f)) fields -> P (JObj fields).

Fixpoint jsval_induction (v : jsval) : P v :=
  match v with
  | JUndefined => on_undefined
  | JNull => on_null
  | JBool b => on_bool b
  | JNum x => on_num x
  | JStr s => on_str s
  | JArr items =>
      on_arr items
        ((fix all (l : list jsval) : Forall P l :=
            match l with
            | [] => @List.Forall_nil _ P
            | x :: rest => @List.Forall_cons _ P x rest (jsval_induction x) (all rest)
            end) items)
  | JObj fields =>
      on_obj fields
        ((fix all (l : list (string * jsval)) : Forall (fun f => P (snd f)) l :=
            match l with
            | [] => @List.Forall_nil _ _
            | f :: rest => @List.Forall_cons _ _ f rest (jsval_induction (snd f)) (all rest)
            end) fields)
  end.

End JsvalInduction.

(** A value without [undefined], without a number that is not finite and
    without [-0] is written and read back as it is. *)
Lemma as_json_plain (v : jsval) : plain_json v = true -> as_json v = v.
Proof.
  induction v as [| |b|x|s|items IH|fields IH] using jsval_induction;
    try reflexivity; simpl.
  - intros H. apply andb_prop in H as [H1 H2].
    apply negb_true_iff in H1, H2. now rewrite H1, H2.
  - intros H. f_equal. induction IH as [|item items Hitem _ IHitems]; [reflexivity|].
    simpl in H. apply andb_prop in H as [H1 H2]. simpl.
    rewrite (IHitems H2), (Hitem H1). now destruct item.
  - intros H. f_equal. induction IH as [|[name x] fields Hx _ IHfields]; [reflexivity|].
    simpl in *. apply andb_prop in H as [H1 H2].
    rewrite (IHfields H2), (Hx H1). now destruct x.
Qed.

Lemma map_key_written (ms : list Mapping) : map key (map written ms) = map key ms.
Proof. rewrite map_map. reflexivity. Qed.

(** A search by key meets in the written mappings the written form of the
    mapping it meets in the mappings handed to [writeConfigFile]. *)
Lemma find_written (p : string -> bool) (ms : list Mapping) :
  List.find (fun m => p (key m)) (map written ms)
  = option_map written (List.find (fun m => p (key m)) ms).
Proof.
  induction ms as [|m ms IH]; [reflexivity|]. simpl.
  destruct (p (key m)); [reflexivity|exact IH].
Qed.

(** ** Running the handlers *)

Lemma trim_nonblank_nonempty (k : string) : trim k <> "" -> String.eqb k "" = false.
Proof. destruct k; [intros H; now elim H|reflexivity]. Qed.

Lemma holds_loads (w : world) (ms : list Mapping) :
  config_file w = holds ms -> loads w ms.
Proof.
  intros H. unfold loads, readConfigFile, try_catch, bind, readFile_config.
  now rewrite H.
Qed.

Ltac run_handler :=
  unfold setDynamicConfig, getDynamicConfigData, removeDayOldData, sweep, logError,
    readConfigFile, writeConfigFile, call_encodeURIComponent, fs_write, readFile_config,
    console_write, destructured, now, bind, try_catch, ret, throw; simpl.

(** A computation whose results, when it returns, all satisfy [Q]. *)
Definition yields {A : Type} (m : M A) (Q : A -> Prop) : Prop :=
  forall w, match fst (m w) with
            | inr a => Q a
            | inl _ => True
            end.

Lemma yields_ret {A : Type} (a : A) (Q : A -> Prop) : Q a -> yields (ret a) Q.
Proof. intros H w. exact H. Qed.

Lemma yields_bind {A B : Type} (m : M A) (k : A -> M B) (Q : B -> Prop) :
  (forall a, yields (k a) Q) -> yields (bind m k) Q.
Proof.
  intros H w. unfold bind. destruct (m w) as [[e|a] w']; simpl; [exact I|apply H].
Qed.

Lemma filter_keeps_all {A : Type} (f : A -> bool) (l : list A) :
  length (List.filter f l) = length l -> List.filter f l = l.
Proof.
  induction l as [|x l IH]; simpl; [reflexivity|].
  pose proof (List.filter_length_le f l) as L.
  destruct (f x); simpl; intros H; [f_equal; apply IH|]; lia.
Qed.

(** The quotient of [removeDayOldData] is below 1 exactly when fewer than
    86400000 milliseconds have passed. *)
Lemma age_below_one (x : Z) :
  ((inject_Z x / inject_Z (1000 * 60 * 60 * 24)) ?= 1)%Q = Lt <-> x < 86400000.
Proof.
  unfold Qcompare. simpl. rewrite !Z.mul_1_r. apply Z.compare_lt_iff.
Qed.

Section Vault.

Variable JSON_parse : string -> option jsval.
Variable Date_parse : string -> option Z.
Variable toISOString : Z -> string.
Variable encodeURIComponent : string -> option string.

Local Abbreviation payload := (payload_of JSON_parse).
Local Abbreviation stored_after := (put_store toISOString).
Local Abbreviation put := (setDynamicConfig JSON_parse toISOString encodeURIComponent).

Lemma parse_data_payload (v : jsval) (w : world) :
  parse_data JSON_parse v w =
    match payload v with
    | Some d => (inr d, w)
    | None => (inl SyntaxError, w)
    end.
Proof.
  destruct v; try reflexivity. simpl. now destruct (JSON_parse s).
Qed.

(** A request that passes validation, on a store that loads and with no
    write rejected: the file is what [writeConfigFile] leaves of
    [put_store]; the reply is 200 when [encodeURIComponent] returns, and 500
    with the URIError in the error log when it throws. *)
Lemma put_accepted (req : request) (w : world) fields k v d ms :
  body req = JObj fields ->
  lookup_field "key" fields = JStr k -> trim k <> "" ->
  lookup_field "data" fields = v -> truthy v = true -> payload v = Some d ->
  loads w ms -> calm (faults w) = true ->
  let r := put req w in
  config_file (snd r) = stored (stored_after k d (clock w) ms)
  /\ clock (snd r) = clock w
  /\ calm (faults (snd r)) = true
  /\ match encodeURIComponent (trim k) with
     | Some encoded => fst r = inr (saved k encoded) /\ error_log (snd r) = error_log w
     | None =>
         fst r = inr (failure 500 "An error occurred while saving data")
         /\ error_log (snd r)
            = (error_log w ++ [{| stamp := toISOString (clock w); logged := URIError |}])%list
     end.
Proof.
  intros Hb Hk Hne Hv Ht Hp Hl Hc.
  destruct w as [cf el co fa cl di re]. unfold loads in Hl.
  run_handler. rewrite Hb. simpl. rewrite Hk, Hv. unfold not_a_key. simpl.
  rewrite (trim_nonblank_nonempty k Hne). simpl.
  destruct (String.eqb (trim k) "") eqn:E; [apply String.eqb_eq in E; contradiction|].
  rewrite Ht. simpl. rewrite parse_data_payload, Hp. simpl.
  revert Hl. run_handler. unfold put_store, new_mapping, stored.
  destruct (encodeURIComponent (trim k)) as [encoded|];
    destruct cf as [| code |[|[[ms0]|]]]; simpl in *; try discriminate.
  - destruct fa as [|[c1|] [|[c2|] fa]]; simpl in *; try discriminate;
      intros [= <-]; simpl; auto.
  - destruct (String.eqb code "ENOENT"); simpl; [|discriminate].
    destruct fa as [|[c1|] [|[c2|] fa]]; simpl in *; try discriminate;
      intros [= <-]; simpl; auto.
  - intros [= <-]. simpl.
    destruct (findIndex (fun x => String.eqb (key x) k) ms0 =? -1); simpl;
      destruct fa as [|[c|] fa]; simpl in *; try discriminate; auto.
  - destruct fa as [|[c1|] [|[c2|] [|[c3|] fa]]]; simpl in *; try discriminate;
      intros [= <-]; simpl; auto.
  - destruct (String.eqb code "ENOENT"); simpl; [|discriminate].
    destruct fa as [|[c1|] [|[c2|] [|[c3|] fa]]]; simpl in *; try discriminate;
      intros [= <-]; simpl; auto.
  - intros [= <-]. simpl.
    destruct (findIndex (fun x => String.eqb (key x) k) ms0 =? -1); simpl;
      destruct fa as [|[c1|] [|[c2|] fa]]; simpl in *; try discriminate; auto.
Qed.

(** A request with a body that fails validation is answered 400 before the
    store is touched: only the console line of the handler's first statement
    is added. *)
Lemma put_rejected (req : request) (w : world) :
  body req <> JUndefined -> body req <> JNull ->
  not_a_key (get_prop "key" (body req)) = true
  \/ truthy (get_prop "data" (body req)) = false
  \/ payload (get_prop "data" (body req)) = None ->
  exists message,
    put req w =
      (inr (failure 400 message),
       set_console (console w ++ [Peer (forwarded_for req) (remote_address req) (ip req)])%list w).
Proof.
  intros Hu Hn H. run_handler.
  assert (D : forall w', destructured (body req) w' = (inr (body req), w')).
  { intros w'. now destruct (body req). }
  unfold destructured in D. rewrite D. clear D.
  destruct (not_a_key (get_prop "key" (body req))) eqn:Ek; [eauto|].
  destruct (truthy (get_prop "data" (body req))) eqn:Et; simpl; [|eauto].
  destruct H as [H|[H|H]]; try discriminate.
  rewrite parse_data_payload, H. simpl. eauto.
Qed.

(** A lookup with a usable id on a store that loads. *)
Lemma get_answered (req : request) (w : world) fields s ms :
  query req = JObj fields ->
  lookup_field "id" fields = JStr s -> trim s <> "" ->
  loads w ms ->
  fst (getDynamicConfigData toISOString req w) =
    inr (match List.find (fun m => String.eqb (key m) (trim s)) ms with
         | Some m => found m
         | None => not_found
         end).
Proof.
  intros Hq Hi Hne Hl. unfold loads in Hl. revert Hl.
  run_handler. rewrite Hq. simpl. rewrite Hi. unfold not_a_key. simpl.
  rewrite (trim_nonblank_nonempty s Hne). simpl.
  destruct (String.eqb (trim s) "") eqn:E; [apply String.eqb_eq in E; contradiction|].
  destruct (config_file w) as [| code |[|[[ms0]|]]]; simpl.
  - destruct (faults w) as [|[c|] fa]; simpl; try discriminate; intros [= <-]; reflexivity.
  - destruct (String.eqb code "ENOENT"); simpl; [|discriminate].
    destruct (faults w) as [|[c|] fa]; simpl; try discriminate; intros [= <-]; reflexivity.
  - discriminate.
  - intros [= <-]. simpl.
    now destruct (List.find (fun m => String.eqb (key m) (trim s)) ms0).
  - discriminate.
Qed.

(** *** The expiry sweep *)

Lemma lt_one_age (t : Z) (s : string) :
  lt_one (compareDateInDays Date_parse t s) = true
  <-> exists d, Date_parse s = Some d /\ t - d < 86400000.
Proof.
  unfold compareDateInDays, lt_one. destruct (Date_parse s) as [d|].
  - pose proof (age_below_one (t - d)) as H.
    destruct (_ ?= 1)%Q; split; intros G; try discriminate; try reflexivity.
    + destruct G as (d' & [= <-] & G). apply H in G. discriminate.
    + exists d. split; [reflexivity|]. now apply H.
    + destruct G as (d' & [= <-] & G). apply H in G. discriminate.
  - split; [discriminate|]. now intros (d & ? & _).
Qed.

Lemma kept_iff (t : Z) (ms : list Mapping) (m : Mapping) :
  In m (filteredMappings Date_parse t ms)
  <-> In m ms /\ exists d, Date_parse (storedDate m) = Some d /\ t - d < 86400000.
Proof.
  unfold filteredMappings. rewrite List.filter_In, lt_one_age. reflexivity.
Qed.

(** On a store that loads and with no write rejected, the sweep calls
    [next]; when the filter dropped nothing the file is left as it was read,
    and otherwise it is what [writeConfigFile] leaves of the filtered
    mappings. *)
Lemma sweep_filters (req : request) (w : world) ms :
  loads w ms -> calm (faults w) = true ->
  let r := removeDayOldData Date_parse toISOString req w in
  let kept := filteredMappings Date_parse (clock w) ms in
  fst r = inr Next
  /\ config_file (snd r)
     = (if (length kept =? length ms)%nat then holds kept else stored kept)
  /\ error_log (snd r) = error_log w.
Proof.
  intros Hl Hc. unfold loads in Hl. revert Hl.
  destruct w as [cf el co fa cl di re]. run_handler. unfold holds, stored.
  destruct cf as [| code |[|[[ms0]|]]]; simpl in *.
  - destruct fa as [|[c1|] fa]; simpl in *; try discriminate; intros [= <-]; simpl; auto.
  - destruct (String.eqb code "ENOENT"); simpl; [|discriminate].
    destruct fa as [|[c1|] fa]; simpl in *; try discriminate; intros [= <-]; simpl; auto.
  - discriminate.
  - intros [= <-]. simpl.
    destruct (length (filteredMappings Date_parse cl ms0) =? length ms0)%nat eqn:E; simpl.
    + apply Nat.eqb_eq in E. unfold filteredMappings in *.
      apply filter_keeps_all in E. rewrite E. auto.
    + destruct fa as [|[c1|] fa]; simpl in *; try discriminate; auto.
  - discriminate.
Qed.

(** [logError] never throws. It appends the entry to the error log unless
    the next pending fault rejects the append, and then it prints that
    rejection instead. *)
Lemma logError_run (e : js_error) (w : world) :
  let entry := {| stamp := toISOString (clock w); logged := e |} in
  logError toISOString e w =
    (inr tt,
     match faults w with
     | Some code :: rest =>
         set_console (console w ++ [LogWriteFailed (FsError code)])%list (set_faults rest w)
     | None :: rest => set_error_log (error_log w ++ [entry])%list (set_faults rest w)
     | [] => set_error_log (error_log w ++ [entry])%list w
     end).
Proof.
  destruct w as [cf el co fa cl di re]. run_handler.
  now destruct fa as [|[c|] fa].
Qed.

Lemma sweep_yields_next : yields (sweep Date_parse) (fun o => o = Next).
Proof.
  unfold sweep. repeat (apply yields_bind; intros). now apply yields_ret.
Qed.

(** *** What [setDynamicConfig] leaves in the store *)

Lemma put_store_has_new (k : string) (d : jsval) (t : Z) (ms : list Mapping) :
  In (new_mapping toISOString k d t) (stored_after k d t ms).
Proof.
  unfold put_store.
  destruct (findIndex (fun x => String.eqb (key x) k) ms =? -1) eqn:E.
  - apply in_or_app. right. now left.
  - apply Z.eqb_neq in E. apply list_elem_of_In, list_elem_of_lookup.
    eexists. now apply assigned_lookup.
Qed.

(** For a key that [trim] leaves alone, the search of [getDynamicConfigData]
    meets the mapping just written. *)
Lemma put_store_find (k : string) (d : jsval) (t : Z) (ms : list Mapping) :
  trim k = k ->
  List.find (fun m => String.eqb (key m) (trim k)) (stored_after k d t ms)
  = Some (new_mapping toISOString k d t).
Proof.
  intros Hk. rewrite Hk. unfold put_store.
  assert (P : (fun x => String.eqb (key x) k) (new_mapping toISOString k d t) = true).
  { simpl. rewrite Hk. apply String.eqb_refl. }
  destruct (findIndex (fun x => String.eqb (key x) k) ms =? -1) eqn:E.
  - apply Z.eqb_eq in E. now apply find_pushed.
  - apply Z.eqb_neq in E. now apply find_assigned.
Qed.

(** C3 (amended). With a valid key, [setDynamicConfig] answers 400 to every
    falsy [data] (missing, [null], [false], [0], the empty string) and to a
    string that is not JSON text. Every other value is accepted: on a store
    that loads and with no write rejected, the file then holds under the
    trimmed key what [JSON.stringify] writes for the value when it is not a
    string, and for the parsed value when it is one; the answer is 200 when
    [encodeURIComponent] returns for the trimmed key, and 500 when it throws,
    which it does after the write. *)
Theorem put_accepts_truthy_data (req : request) (w : world) fields k v :
  body req = JObj fields ->
  lookup_field "key" fields = JStr k -> trim k <> "" ->
  lookup_field "data" fields = v ->
  let r := put req w in
  (truthy v = false ->
   fst r = inr (failure 400 "Data is required") /\ config_file (snd r) = config_file w)
  /\ (forall s, v = JStr s -> s <> "" -> JSON_parse s = None ->
      fst r = inr (failure 400 "Invalid JSON data provided")
      /\ config_file (snd r) = config_file w)
  /\ (forall ms d, truthy v = true ->
      (is_string v = false /\ d = v) \/ (exists s, v = JStr s /\ JSON_parse s = Some d) ->
      loads w ms -> calm (faults w) = true ->
      (exists ms', config_file (snd r) = holds ms'
                   /\ In {| key := trim k; data := as_json d;
                            storedDate := toISOString (clock w) |} ms')
      /\ (forall encoded, encodeURIComponent (trim k) = Some encoded ->
          fst r = inr (saved k encoded))
      /\ (encodeURIComponent (trim k) = None ->
          fst r = inr (failure 500 "An error occurred while saving data"))).
Proof.
  intros Hb Hk Hne Hv r.
  assert (Hkey : not_a_key (JStr k) = false).
  { unfold not_a_key. simpl. rewrite (trim_nonblank_nonempty k Hne). simpl.
    now apply String.eqb_neq. }
  split; [|split].
  - intros Hf. subst r. run_handler. rewrite Hb. simpl.
    rewrite Hk, Hkey, Hv, Hf. split; reflexivity.
  - intros s Hs Hnes Hparse. rewrite Hs in Hv. subst r. run_handler.
    rewrite Hb. simpl. rewrite Hk, Hkey, Hv. simpl.
    apply String.eqb_neq in Hnes. rewrite Hnes. simpl. rewrite Hparse.
    split; reflexivity.
  - intros ms d Ht Hd Hl Hc.
    assert (Hp : payload v = Some d).
    { destruct Hd as [[Hs ->]|(s & -> & Hs)]; [now destruct v|exact Hs]. }
    destruct (put_accepted req w fields k v d ms Hb Hk Hne Hv Ht Hp Hl Hc)
      as (Hf & _ & _ & Hr).
    fold r in Hf, Hr. split; [|split].
    + eexists. split; [exact Hf|].
      apply (in_map written) with (x := new_mapping toISOString k d (clock w)).
      apply put_store_has_new.
    + intros encoded He. rewrite He in Hr. apply Hr.
    + intros He. rewrite He in Hr. apply Hr.
Qed.

(** C4 (amended). For a non-empty key without white space at either end,
    for which [encodeURIComponent] returns, and a value that
    [setDynamicConfig] accepts, a put followed by a get of the same key
    answers 200 with that key and with what [JSON.stringify] wrote for the
    stored value (the data when it is not a string, the parsed value when it
    is one): the stored value itself when nothing in it is [undefined], a
    number that is not finite or [-0]. *)
Theorem put_then_get_returns_data (put_req get_req : request) (w : world)
  fields qfields k v d encoded ms :
  body put_req = JObj fields ->
  lookup_field "key" fields = JStr k -> k <> "" -> trim k = k ->
  encodeURIComponent k = Some encoded ->
  lookup_field "data" fields = v -> truthy v = true ->
  (is_string v = false /\ d = v) \/ (exists s, v = JStr s /\ JSON_parse s = Some d) ->
  query get_req = JObj qfields -> lookup_field "id" qfields = JStr k ->
  loads w ms -> calm (faults w) = true ->
  let r := put put_req w in
  let answer := fst (getDynamicConfigData toISOString get_req (snd r)) in
  fst r = inr (saved k encoded)
  /\ answer = inr (found {| key := k; data := as_json d;
                            storedDate := toISOString (clock w) |})
  /\ (plain_json d = true ->
      answer = inr (found {| key := k; data := d; storedDate := toISOString (clock w) |})).
Proof.
  intros Hb Hk Hne Htrim He Hv Ht Hd Hq Hid Hl Hc r answer.
  assert (Hne' : trim k <> "") by now rewrite Htrim.
  assert (Hp : payload v = Some d).
  { destruct Hd as [[Hs ->]|(s & -> & Hs)]; [now destruct v|exact Hs]. }
  destruct (put_accepted put_req w fields k v d ms Hb Hk Hne' Hv Ht Hp Hl Hc)
    as (Hf & _ & _ & Hr).
  rewrite Htrim, He in Hr. destruct Hr as [Hr _]. fold r in Hf, Hr.
  assert (Ha : answer = inr (found {| key := k; data := as_json d;
                                      storedDate := toISOString (clock w) |})).
  { unfold answer.
    rewrite (get_answered get_req (snd r) qfields k _ Hq Hid Hne' (holds_loads _ _ Hf)).
    rewrite (find_written (fun s => String.eqb s (trim k))). cbn [mappings].
    rewrite put_store_find by exact Htrim.
    unfold new_mapping, written. simpl. now rewrite Htrim. }
  split; [exact Hr|]. split; [exact Ha|].
  intros Hplain. rewrite Ha. now rewrite (as_json_plain d Hplain).
Qed.

(** X5. A request with a body whose key is missing, not a string or blank,
    whose data is missing or [null], or whose data is a string that is not
    JSON text, is answered 400, and neither the store file nor the error log
    is touched and no write is attempted. *)
Theorem put_invalid_is_400_and_store_unchanged (req : request) (w : world) :
  body req <> JUndefined -> body req <> JNull ->
  let k := get_prop "key" (body req) in
  let v := get_prop "data" (body req) in
  is_string k = false \/ (exists s, k = JStr s /\ trim s = "")
  \/ v = JUndefined \/ v = JNull
  \/ (exists s, v = JStr s /\ JSON_parse s = None) ->
  let r := put req w in
  (exists message, fst r = inr (failure 400 message))
  /\ config_file (snd r) = config_file w
  /\ error_log (snd r) = error_log w
  /\ faults (snd r) = faults w.
Proof.
  intros Hu Hn k v H r.
  destruct (put_rejected req w Hu Hn) as (message & E).
  { destruct H as [H|[(s & H & Hs)|[H|[H|(s & H & Hs)]]]].
    - left. unfold not_a_key. fold k. rewrite H. now destruct (truthy k).
    - left. unfold not_a_key. fold k. rewrite H. simpl. rewrite Hs.
      now destruct (String.eqb s "").
    - right. left. fold v. now rewrite H.
    - right. left. fold v. now rewrite H.
    - right. right. fold v. now rewrite H. }
  subst r. rewrite E. simpl. eauto.
Qed.

(** C7 (amended). For an id that is a string and not blank, on a store that
    loads, [getDynamicConfigData] compares each key with the trimmed id for
    equality of strings: it answers 404 when no mapping has that key, and
    otherwise 200 with the key, data and time stamp of a mapping that has it
    (the first one). It returns in both cases. *)
Theorem get_by_trimmed_id (req : request) (w : world) fields s ms :
  query req = JObj fields ->
  lookup_field "id" fields = JStr s -> trim s <> "" ->
  loads w ms ->
  let r := getDynamicConfigData toISOString req w in
  ((forall m, In m ms -> key m <> trim s) -> fst r = inr not_found)
  /\ ((exists m, In m ms /\ key m = trim s) ->
      exists m, In m ms /\ key m = trim s
                /\ List.find (fun x => String.eqb (key x) (trim s)) ms = Some m
                /\ fst r = inr (found m)).
Proof.
  intros Hq Hi Hne Hl r. subst r.
  rewrite (get_answered req w fields s ms Hq Hi Hne Hl).
  destruct (List.find (fun x => String.eqb (key x) (trim s)) ms) as [m|] eqn:F.
  - apply List.find_some in F as (Hin & Heq). apply String.eqb_eq in Heq. split.
    + intros Hno. now elim (Hno m Hin).
    + intros _. exists m. auto.
  - split; [reflexivity|]. intros (m & Hin & Heq).
    pose proof (List.find_none _ _ F m Hin) as Hm. simpl in Hm.
    rewrite Heq, String.eqb_refl in Hm. discriminate.
Qed.

End Vault.

(** ** Keys that [trim] leaves alone *)
Section TrimmedKeys.

Variable JSON_parse : string -> option jsval.
Variable toISOString : Z -> string.
Variable encodeURIComponent : string -> option string.

Local Abbreviation put := (setDynamicConfig JSON_parse toISOString encodeURIComponent).

(** X1. For a key that [trim] leaves alone, [setDynamicConfig] replaces the
    first mapping with that key at its index and touches no other index, or
    appends when no mapping has the key; [ms'] is the array it hands to
    [writeConfigFile]. *)
Theorem put_trimmed_key_replaces_or_appends (req : request) (w : world) fields k v d ms :
  body req = JObj fields ->
  lookup_field "key" fields = JStr k -> k <> "" -> trim k = k ->
  lookup_field "data" fields = v -> truthy v = true -> payload_of JSON_parse v = Some d ->
  loads w ms -> calm (faults w) = true ->
  let r := put req w in
  let m := {| key := k; data := d; storedDate := toISOString (clock w) |} in
  exists ms',
    config_file (snd r) = stored ms'
    /\ ((forall x, In x ms -> key x <> k) -> ms' = (ms ++ [m])%list)
    /\ (forall i x, ms !! i = Some x -> key x = k ->
        (forall j y, (j < i)%nat -> ms !! j = Some y -> key y <> k) ->
        length ms' = length ms /\ ms' !! i = Some m
        /\ forall j, j <> i -> ms' !! j = ms !! j).
Proof.
  intros Hb Hk Hne Htrim Hv Ht Hp Hl Hc r m.
  assert (Hne' : trim k <> "") by now rewrite Htrim.
  destruct (put_accepted JSON_parse toISOString encodeURIComponent req w fields k v d ms
              Hb Hk Hne' Hv Ht Hp Hl Hc) as (Hf & _).
  eexists. split; [exact Hf|].
  unfold put_store, new_mapping. rewrite Htrim. fold m. split.
  - intros Hno.
    assert (E : findIndex (fun x => String.eqb (key x) k) ms = -1).
    { apply findIndex_absent. intros x Hx. apply String.eqb_neq. now apply Hno. }
    now rewrite E.
  - intros i x Hi Hx Hbefore.
    assert (E : findIndex (fun x => String.eqb (key x) k) ms = Z.of_nat i).
    { apply (findIndex_first _ ms i x Hi).
      - now apply String.eqb_eq.
      - intros j y Hj Hy. apply String.eqb_neq. now apply (Hbefore j y). }
    rewrite E. replace (Z.of_nat i =? -1) with false by (symmetry; apply Z.eqb_neq; lia).
    rewrite Nat2Z.id. split; [apply length_insert|]. split.
    + apply list_lookup_insert_eq. now apply lookup_lt_Some in Hi.
    + intros j Hj. apply list_lookup_insert_ne. congruence.
Qed.

(** The keys [setDynamicConfig] hands to [writeConfigFile] stay pairwise
    distinct for a key that [trim] leaves alone. *)
Lemma put_store_keys_distinct (k : string) (d : jsval) (t : Z) (ms : list Mapping) :
  trim k = k -> List.NoDup (map key ms) ->
  List.NoDup (map key (put_store toISOString k d t ms)).
Proof.
  intros Htrim Hnd. unfold put_store, new_mapping. rewrite Htrim.
  set (p := fun x => String.eqb (key x) k).
  destruct (findIndex p ms =? -1) eqn:E.
  - apply Z.eqb_eq in E. rewrite map_app. simpl. apply NoDup_push; [exact Hnd|].
    intros Hin. apply in_map_iff in Hin as (x & Hx & Hin).
    pose proof (proj1 (findIndex_absent p ms) E x Hin) as Hp'.
    unfold p in Hp'. rewrite Hx, String.eqb_refl in Hp'. discriminate.
  - apply Z.eqb_neq in E. pose proof (find_findIndex p ms) as F.
    apply Z.eqb_neq in E. rewrite E in F.
    destruct (ms !! Z.to_nat (findIndex p ms)) as [x|] eqn:Hx.
    + apply List.find_some in F as (_ & Px). apply String.eqb_eq in Px.
      rewrite (map_assign_same key ms _ x); [exact Hnd|exact Hx|now rewrite Px].
    + pose proof (findIndex_bounds p ms). apply lookup_ge_None in Hx.
      apply Z.eqb_neq in E. lia.
Qed.

(** X2. For such a key the keys of the store stay pairwise distinct. *)
Theorem put_trimmed_key_keeps_keys_distinct (req : request) (w : world) fields k v d ms :
  body req = JObj fields ->
  lookup_field "key" fields = JStr k -> k <> "" -> trim k = k ->
  lookup_field "data" fields = v -> truthy v = true -> payload_of JSON_parse v = Some d ->
  loads w ms -> calm (faults w) = true ->
  List.NoDup (map key ms) ->
  exists ms', config_file (snd (put req w)) = holds ms' /\ List.NoDup (map key ms').
Proof.
  intros Hb Hk Hne Htrim Hv Ht Hp Hl Hc Hnd.
  assert (Hne' : trim k <> "") by now rewrite Htrim.
  destruct (put_accepted JSON_parse toISOString encodeURIComponent req w fields k v d ms
              Hb Hk Hne' Hv Ht Hp Hl Hc) as (Hf & _).
  eexists. split; [exact Hf|]. cbn [mappings].
  rewrite map_key_written. now apply put_store_keys_distinct.
Qed.

End TrimmedKeys.

(** ** The expiry sweep as a pre-processing step *)
Section Expiry.

Variable Date_parse : string -> option Z.
Variable toISOString : Z -> string.

Local Abbreviation age := (compareDateInDays Date_parse).
Local Abbreviation kept_at := (filteredMappings Date_parse).
Local Abbreviation expire := (removeDayOldData Date_parse toISOString).

Lemma lt_one_Qlt (x : option Q) :
  lt_one x = true <-> exists q, x = Some q /\ (q < 1)%Q.
Proof.
  destruct x as [q|]; simpl.
  - pose proof (Qlt_alt q 1) as L.
    destruct (q ?= 1)%Q; split; intros H; try discriminate; try reflexivity.
    + destruct H as (q' & [= <-] & H). apply L in H. discriminate.
    + exists q. split; [reflexivity|]. now apply L.
    + destruct H as (q' & [= <-] & H). apply L in H. discriminate.
  - split; [discriminate|]. now intros (q & ? & _).
Qed.

(** C5. On a store that loads, the sweep leaves in the file exactly the
    mappings whose age, (now - storedDate) in days, is below 1: a mapping
    stored 23 hours ago stays, one stored 25 hours ago goes. The file is
    left as it was read when no mapping goes, and is otherwise what
    [writeConfigFile] leaves of the mappings that stay. *)
Theorem expiry_keeps_ages_below_one_day (req : request) (w : world) ms :
  loads w ms -> calm (faults w) = true ->
  let r := expire req w in
  let kept := kept_at (clock w) ms in
  config_file (snd r) = (if (length kept =? length ms)%nat then holds kept else stored kept)
  /\ (forall m d, Date_parse (storedDate m) = Some d ->
      age (clock w) (storedDate m) = Some (inject_Z (clock w - d) / inject_Z 86400000)%Q)
  /\ (forall m, In m kept <->
      In m ms /\ exists q, age (clock w) (storedDate m) = Some q /\ (q < 1)%Q)
  /\ (forall m, In m ms ->
      Date_parse (storedDate m) = Some (clock w - 23 * 3600000) -> In m kept)
  /\ (forall m, Date_parse (storedDate m) = Some (clock w - 25 * 3600000) -> ~ In m kept).
Proof.
  intros Hl Hc r kept.
  destruct (sweep_filters Date_parse toISOString req w ms Hl Hc) as (_ & Hf & _).
  split; [exact Hf|]. split; [|split; [|split]].
  - intros m d Hd. unfold compareDateInDays. now rewrite Hd.
  - intros m. unfold kept, filteredMappings. now rewrite List.filter_In, lt_one_Qlt.
  - intros m Hin Hd. apply kept_iff. split; [exact Hin|].
    exists (clock w - 23 * 3600000). split; [exact Hd|lia].
  - intros m Hd Hin. apply kept_iff in Hin as (_ & d & Hd' & Hlt).
    rewrite Hd in Hd'. injection Hd' as <-. lia.
Qed.

(** C10. A mapping whose [storedDate] does not parse has the age NaN and is
    removed by the sweep; a mapping whose [storedDate] is later than now
    stays. *)
Theorem expiry_drops_unparsable_keeps_future (req : request) (w : world) ms :
  loads w ms -> calm (faults w) = true ->
  let r := expire req w in
  let kept := kept_at (clock w) ms in
  config_file (snd r) = (if (length kept =? length ms)%nat then holds kept else stored kept)
  /\ (forall m, Date_parse (storedDate m) = None ->
      age (clock w) (storedDate m) = None /\ ~ In m kept)
  /\ (forall m d, In m ms -> Date_parse (storedDate m) = Some d -> clock w < d ->
      In m kept).
Proof.
  intros Hl Hc r kept.
  destruct (sweep_filters Date_parse toISOString req w ms Hl Hc) as (_ & Hf & _).
  split; [exact Hf|]. split.
  - intros m Hd. split.
    + unfold compareDateInDays. now rewrite Hd.
    + intros Hin. apply kept_iff in Hin as (_ & d & Hd' & _). congruence.
  - intros m d Hin Hd Hlt. apply kept_iff. split; [exact Hin|].
    exists d. split; [exact Hd|lia].
Qed.

(** C8. Whatever the store file and the pending faults, [removeDayOldData]
    returns by calling [next]. When its [try] block throws (on the load, in
    the filter or on the write-back), the [catch] block prints the error on
    the console, after [logError] has appended it, with the time, to the
    error log; only when that append is itself rejected is the error log
    left as it was, and then the rejection is printed on the console
    first. The store file is as the [try] block left it. *)
Theorem expiry_never_fails_the_request (req : request) (w : world) :
  let r := expire req w in
  fst r = inr Next
  /\ (forall e w1, sweep Date_parse w = (inl e, w1) ->
      let entry := {| stamp := toISOString (clock w1); logged := e |} in
      config_file (snd r) = config_file w1
      /\ match faults w1 with
         | Some code :: _ =>
             error_log (snd r) = error_log w1
             /\ console (snd r)
                = (console w1 ++ [LogWriteFailed (FsError code); CleanupFailed e])%list
         | _ =>
             error_log (snd r) = (error_log w1 ++ [entry])%list
             /\ console (snd r) = (console w1 ++ [CleanupFailed e])%list
         end).
Proof.
  intros r. subst r. unfold removeDayOldData, try_catch.
  pose proof (sweep_yields_next Date_parse w) as Hn.
  destruct (sweep Date_parse w) as [[e|o] w1] eqn:S; simpl in Hn.
  - unfold bind. rewrite (logError_run toISOString e w1).
    unfold console_write, ret. split; [reflexivity|].
    intros e0 w0 [= <- <-]. cbv zeta.
    destruct (faults w1) as [|[code|] rest]; simpl; rewrite <- ?app_assoc; auto.
  - subst o. split; [reflexivity|]. intros e w0 [=].
Qed.

End Expiry.

(** ** The static-file route *)
Section StaticFiles.

Variable dirname : string.

Local Abbreviation serve := (Server.serveStaticFile dirname).
Local Abbreviation root := (Server.PUBLIC_DIR dirname).

Local Abbreviation requested := (Server.filePath dirname).

(** X3. A path that does not begin with the text of [PUBLIC_DIR] is refused
    with 403 before any read. *)
Lemma static_refused (param : option string) (w : world) :
  startsWith (requested param) root = false ->
  serve param w = (inr (Replied 403 (Json (JObj [("error", JStr "Forbidden")]))), w).
Proof.
  intros H. unfold Server.serveStaticFile, try_catch, ret. now rewrite H.
Qed.

(** X4. A path that begins with the text of [PUBLIC_DIR] is read; a missing
    file is answered 404. *)
Lemma static_missing (param : option string) (w : world) :
  startsWith (requested param) root = true ->
  disk w (requested param) = NoEntry ->
  let r := serve param w in
  fst r = inr (Replied 404 (Json (JObj [("error", JStr "File not found")])))
  /\ reads (snd r) = (reads w ++ [requested param])%list.
Proof.
  intros H Hd. unfold Server.serveStaticFile, try_catch. rewrite H. simpl.
  unfold bind, readFile. rewrite Hd. simpl. auto.
Qed.

End StaticFiles.

(** ** The handlers on sample requests *)

(** C1. The store has the key [a]; a put with the key [" a"] passes
    validation and is stored under the trimmed key [a], but the search for
    an existing mapping compares with the untrimmed [" a"]: the mapping at
    index 0 is left as it was and a second mapping [a] is appended. *)
Theorem put_untrimmed_key_appends_duplicate :
  let r := Sample.put (put_request (JStr " a") (JNum 2%float)) Sample.with_a in
  fst r = inr (saved "a" "a")
  /\ config_file (snd r)
     = holds [Sample.stored_at "a" (JNum 1%float) (Sample.noon - 5 * Sample.hour);
              Sample.stored_at "a" (JNum 2%float) Sample.noon].
Proof. vm_compute. split; reflexivity. Qed.

(** C2. From the empty store, two puts with the key [" a"] leave two
    mappings with the key [a], and a get of [" a"] returns the data of the
    first put. *)
Theorem put_twice_untrimmed_keeps_both :
  let w1 := snd (Sample.put (put_request (JStr " a") (JNum 1%float)) Sample.fresh) in
  let w2 := snd (Sample.put (put_request (JStr " a") (JNum 2%float)) w1) in
  config_file w2
  = holds [Sample.stored_at "a" (JNum 1%float) Sample.noon;
           Sample.stored_at "a" (JNum 2%float) Sample.noon]
  /\ fst (Sample.get (get_request (JStr " a")) w2)
     = inr (found (Sample.stored_at "a" (JNum 1%float) Sample.noon)).
Proof. vm_compute. split; reflexivity. Qed.

(** C6. A request without a body has no key: the destructuring of
    [req.body] throws before the validation is reached, and the answer is
    500, with the TypeError appended to the error log, where a request with
    the body [{}], which has no key either, is answered 400. The store is
    left alone in both cases. *)
Theorem put_without_body_is_500 :
  let r := Sample.put Sample.no_body Sample.with_a in
  let r' := Sample.put Sample.empty_body Sample.with_a in
  fst r = inr (failure 500 "An error occurred while saving data")
  /\ config_file (snd r) = config_file Sample.with_a
  /\ error_log (snd r) = [{| stamp := "2026-11-02T12:00:00.000Z"; logged := TypeError |}]
  /\ fst r' = inr (failure 400 "Key is required and must be a non-empty string")
  /\ config_file (snd r') = config_file Sample.with_a
  /\ error_log (snd r') = [].
Proof. vm_compute. repeat split; reflexivity. Qed.

(** C9. With [public-old] beside [public], the file name
    [../public-old/keys.json] resolves to a path outside the public
    directory that still begins with the text of [PUBLIC_DIR]: the file is
    read and served with 200. *)
Theorem static_serves_sibling_directory :
  let r := Server.serveStaticFile "/srv/app" (Some "../public-old/keys.json") Sample.site in
  Server.PUBLIC_DIR "/srv/app" = "/srv/app/public"
  /\ Server.filePath "/srv/app" (Some "../public-old/keys.json")
     = "/srv/app/public-old/keys.json"
  /\ Server.inside "/srv/app/public" "/srv/app/public-old/keys.json" = false
  /\ fst r = inr (Replied 200 (Raw "application/json" "secret"))
  /\ reads (snd r) = ["/srv/app/public-old/keys.json"].
Proof. vm_compute. repeat split; reflexivity. Qed.

(** C3, as stated, fails: with a valid key the data [0], [false], [null]
    and the empty string are all answered 400. *)
Lemma put_rejects_falsy_data :
  let w := Sample.fresh in
  let key := JStr "abc123" in
  fst (Sample.put (put_request key (JNum 0%float)) w) = inr (failure 400 "Data is required")
  /\ fst (Sample.put (put_request key (JBool false)) w) = inr (failure 400 "Data is required")
  /\ fst (Sample.put (put_request key JNull) w) = inr (failure 400 "Data is required")
  /\ fst (Sample.put (put_request key (JStr "")) w) = inr (failure 400 "Data is required").
Proof. vm_compute. repeat split; reflexivity. Qed.

(** The string [{"a":1}] under the key [abc123] is accepted and its parsed
    value is stored. *)
Lemma put_accepts_truthy_data_witness :
  let r := Sample.put (put_request (JStr "abc123") (JStr Sample.text_a1)) Sample.fresh in
  (exists ms', config_file (snd r) = holds ms'
               /\ In (Sample.stored_at "abc123" Sample.value_a1 Sample.noon) ms')
  /\ fst r = inr (saved "abc123" "abc123").
Proof.
  destruct (proj2 (proj2 (put_accepts_truthy_data Runtime.JSON_parse Runtime.toISOString
              Runtime.encodeURIComponent
              (put_request (JStr "abc123") (JStr Sample.text_a1)) Sample.fresh
              _ "abc123" (JStr Sample.text_a1) eq_refl eq_refl ltac:(vm_compute; discriminate)
              eq_refl))
            [] Sample.value_a1 eq_refl
            (or_intror (ex_intro _ Sample.text_a1 (conj eq_refl eq_refl)))
            eq_refl eq_refl) as (Hfile & Hok & _).
  split; [exact Hfile | exact (Hok "abc123" eq_refl)].
Defined.

(** C4, as stated, fails: [false] is a JSON value, the put is answered 400
    and the get 404; the JSON string ["1"] comes back as the number 1; and
    the object that the JSON text [{"x":1e999}] stands for, whose member is
    the number Infinity, comes back with the member [null]. *)
Lemma round_trip_fails_for_false_and_strings :
  let key := JStr "abc123" in
  let r := Sample.put (put_request key (JBool false)) Sample.fresh in
  let r' := Sample.put (put_request key (JStr "1")) Sample.fresh in
  let r'' := Sample.put (put_request key (JObj [("x", JNum infinity)])) Sample.fresh in
  fst r = inr (failure 400 "Data is required")
  /\ fst (Sample.get (get_request key) (snd r)) = inr not_found
  /\ fst r' = inr (saved "abc123" "abc123")
  /\ fst (Sample.get (get_request key) (snd r'))
     = inr (found (Sample.stored_at "abc123" (JNum 1%float) Sample.noon))
  /\ fst r'' = inr (saved "abc123" "abc123")
  /\ fst (Sample.get (get_request key) (snd r''))
     = inr (found (Sample.stored_at "abc123" (JObj [("x", JNull)]) Sample.noon)).
Proof. vm_compute. repeat split; reflexivity. Qed.

(** The example of the interface: [{"a":1}] put under [abc123] is returned
    by the get of [abc123]. *)
Lemma put_then_get_returns_data_witness :
  let r := Sample.put (put_request (JStr "abc123") (JStr Sample.text_a1)) Sample.fresh in
  fst r = inr (saved "abc123" "abc123")
  /\ fst (Sample.get (get_request (JStr "abc123")) (snd r))
     = inr (found (Sample.stored_at "abc123" Sample.value_a1 Sample.noon)).
Proof.
  destruct (put_then_get_returns_data Runtime.JSON_parse Runtime.toISOString
              Runtime.encodeURIComponent
              (put_request (JStr "abc123") (JStr Sample.text_a1))
              (get_request (JStr "abc123")) Sample.fresh
              _ _ "abc123" (JStr Sample.text_a1) Sample.value_a1 "abc123" []
              eq_refl eq_refl ltac:(discriminate) eq_refl eq_refl eq_refl eq_refl
              (or_intror (ex_intro _ Sample.text_a1 (conj eq_refl eq_refl)))
              eq_refl eq_refl eq_refl eq_refl) as (Hput & _ & Hget).
  split; [exact Hput | exact (Hget eq_refl)].
Defined.

(** Of the mappings aged 23 and 25 hours, only the first is left. *)
Lemma expiry_keeps_ages_below_one_day_witness :
  config_file (snd (Sample.expire Sample.any_request Sample.aged))
  = holds [Sample.stored_at "h23" JNull (Sample.noon - 23 * Sample.hour);
           Sample.stored_at "ahead" JNull (Sample.noon + Sample.hour)]
  /\ In (Sample.stored_at "h23" JNull (Sample.noon - 23 * Sample.hour))
        (filteredMappings Runtime.Date_parse Sample.noon
           [Sample.stored_at "h23" JNull (Sample.noon - 23 * Sample.hour)]).
Proof.
  split.
  - exact (proj1 (expiry_keeps_ages_below_one_day Runtime.Date_parse Runtime.toISOString
                    Sample.any_request Sample.aged _ eq_refl eq_refl)).
  - refine (proj1 (proj2 (proj2 (proj2
              (expiry_keeps_ages_below_one_day Runtime.Date_parse Runtime.toISOString
                 Sample.any_request
                 (world_of (holds [Sample.stored_at "h23" JNull (Sample.noon - 23 * Sample.hour)])
                    Sample.noon [])
                 _ eq_refl eq_refl))))
              (Sample.stored_at "h23" JNull (Sample.noon - 23 * Sample.hour)) _ eq_refl).
    now left.
Defined.

(** [put("", v)] and [put(null, v)] are answered 400 and leave the store. *)
Lemma put_invalid_is_400_and_store_unchanged_witness :
  let r := Sample.put (put_request (JStr "") Sample.value_a1) Sample.with_a in
  let r' := Sample.put (put_request JNull Sample.value_a1) Sample.with_a in
  ((exists message, fst r = inr (failure 400 message))
   /\ config_file (snd r) = config_file Sample.with_a
   /\ error_log (snd r) = error_log Sample.with_a
   /\ faults (snd r) = faults Sample.with_a)
  /\ ((exists message, fst r' = inr (failure 400 message))
      /\ config_file (snd r') = config_file Sample.with_a
      /\ error_log (snd r') = error_log Sample.with_a
      /\ faults (snd r') = faults Sample.with_a).
Proof.
  split.
  - apply (put_invalid_is_400_and_store_unchanged Runtime.JSON_parse Runtime.toISOString
             Runtime.encodeURIComponent
             (put_request (JStr "") Sample.value_a1) Sample.with_a);
      [discriminate | discriminate |].
    right. left. exists "". split; reflexivity.
  - apply (put_invalid_is_400_and_store_unchanged Runtime.JSON_parse Runtime.toISOString
             Runtime.encodeURIComponent
             (put_request JNull Sample.value_a1) Sample.with_a);
      [discriminate | discriminate |].
    left. reflexivity.
Defined.

(** C7, as stated, fails: the id of one space is not empty, no mapping has
    the key it trims to, and the answer is 400. *)
Lemma get_blank_id_is_400 :
  fst (Sample.get (get_request (JStr " ")) Sample.with_a)
  = inr (failure 400 "Query parameter 'id' is required").
Proof. vm_compute. reflexivity. Qed.

(** The id [" a "] finds the key [a]; the id ["A"] finds nothing. *)
Lemma get_by_trimmed_id_witness :
  (exists m, In m [Sample.stored_at "a" (JNum 1%float) (Sample.noon - 5 * Sample.hour)]
             /\ key m = "a"
             /\ List.find (fun x => String.eqb (key x) "a")
                  [Sample.stored_at "a" (JNum 1%float) (Sample.noon - 5 * Sample.hour)]
                = Some m
             /\ fst (Sample.get (get_request (JStr " a ")) Sample.with_a) = inr (found m))
  /\ fst (Sample.get (get_request (JStr "A")) Sample.with_a) = inr not_found.
Proof.
  split.
  - refine (proj2 (get_by_trimmed_id Runtime.toISOString (get_request (JStr " a "))
                     Sample.with_a _ " a " _ eq_refl eq_refl _ eq_refl) _).
    + vm_compute. discriminate.
    + eexists. split; [now left|reflexivity].
  - refine (proj1 (get_by_trimmed_id Runtime.toISOString (get_request (JStr "A"))
                     Sample.with_a _ "A" _ eq_refl eq_refl _ eq_refl) _).
    + vm_compute. discriminate.
    + intros m [<-|[]]. vm_compute. discriminate.
Defined.

(** The mapping whose time stamp does not parse goes, the one ahead of the
    clock stays. *)
Lemma expiry_drops_unparsable_keeps_future_witness :
  config_file (snd (Sample.expire Sample.any_request Sample.aged))
  = holds [Sample.stored_at "h23" JNull (Sample.noon - 23 * Sample.hour);
           Sample.stored_at "ahead" JNull (Sample.noon + Sample.hour)].
Proof.
  exact (proj1 (expiry_drops_unparsable_keeps_future Runtime.Date_parse Runtime.toISOString
                  Sample.any_request Sample.aged _ eq_refl eq_refl)).
Defined.

(** The [try] block of the sweep throws on the load (a file that cannot be
    read, text that is not JSON), in the filter (a document without a
    [mappings] array) and on the write-back (a rejected write). *)
Example sweep_error_sources :
  fst (sweep Runtime.Date_parse (world_of (Unreadable "EACCES") Sample.noon []))
  = inl (FsError "EACCES")
  /\ fst (sweep Runtime.Date_parse (world_of (Content Garbled) Sample.noon []))
     = inl SyntaxError
  /\ fst (sweep Runtime.Date_parse (world_of (Content (Json_text NotConfig)) Sample.noon []))
     = inl TypeError
  /\ fst (sweep Runtime.Date_parse
            (world_of (config_file Sample.aged) Sample.noon [Some "ENOSPC"]))
     = inl (FsError "ENOSPC").
Proof. vm_compute. repeat split; reflexivity. Qed.

(** A rejected write-back: the request goes on, the store keeps the expired
    mappings and the error is in the error log. *)
Example expiry_write_rejected :
  let w := world_of (config_file Sample.aged) Sample.noon [Some "ENOSPC"] in
  let r := Sample.expire Sample.any_request w in
  fst r = inr Next
  /\ config_file (snd r) = config_file Sample.aged
  /\ error_log (snd r)
     = [{| stamp := "2026-11-02T12:00:00.000Z"; logged := FsError "ENOSPC" |}]
  /\ console (snd r) = [CleanupFailed (FsError "ENOSPC")].
Proof. vm_compute. repeat split; reflexivity. Qed.

(** A rejected write-back followed by a rejected append to the error log:
    the request goes on, the error log is left empty and both rejections
    are on the console. *)
Example expiry_log_rejected :
  let w := world_of (config_file Sample.aged) Sample.noon [Some "ENOSPC"; Some "EACCES"] in
  let r := Sample.expire Sample.any_request w in
  fst r = inr Next
  /\ config_file (snd r) = config_file Sample.aged
  /\ error_log (snd r) = []
  /\ console (snd r)
     = [LogWriteFailed (FsError "EACCES"); CleanupFailed (FsError "ENOSPC")].
Proof. vm_compute. repeat split; reflexivity. Qed.

(** The key [a] is in the store at index 0: a put of [a] replaces it there. *)
Lemma put_trimmed_key_replaces_or_appends_witness :
  exists ms',
    config_file (snd (Sample.put (put_request (JStr "a") (JNum 2%float)) Sample.with_a))
    = stored ms'
    /\ length ms' = 1%nat
    /\ ms' !! 0%nat = Some (Sample.stored_at "a" (JNum 2%float) Sample.noon).
Proof.
  destruct (put_trimmed_key_replaces_or_appends Runtime.JSON_parse Runtime.toISOString
              Runtime.encodeURIComponent
              (put_request (JStr "a") (JNum 2%float)) Sample.with_a
              _ "a" _ (JNum 2%float) _ eq_refl eq_refl ltac:(discriminate) eq_refl
              eq_refl eq_refl eq_refl eq_refl eq_refl) as (ms' & Hf & _ & Hrep).
  exists ms'. split; [exact Hf|].
  destruct (Hrep 0%nat _ eq_refl eq_refl) as (Hlen & Hm & _).
  - intros j y Hj. lia.
  - split; [exact Hlen|exact Hm].
Defined.

Lemma put_trimmed_key_keeps_keys_distinct_witness :
  exists ms',
    config_file (snd (Sample.put (put_request (JStr "a") (JNum 2%float)) Sample.with_a))
    = holds ms'
    /\ List.NoDup (map key ms').
Proof.
  apply (put_trimmed_key_keeps_keys_distinct Runtime.JSON_parse Runtime.toISOString
           Runtime.encodeURIComponent
           (put_request (JStr "a") (JNum 2%float)) Sample.with_a
           _ "a" _ (JNum 2%float) _ eq_refl eq_refl ltac:(discriminate) eq_refl
           eq_refl eq_refl eq_refl eq_refl eq_refl).
  constructor; [intros []|constructor].
Defined.

(** [../../etc/passwd] resolves to [/srv/etc/passwd]: refused, nothing read. *)
Lemma static_refused_witness :
  Server.serveStaticFile "/srv/app" (Some "../../etc/passwd") Sample.site
  = (inr (Replied 403 (Json (JObj [("error", JStr "Forbidden")]))), Sample.site).
Proof. apply (static_refused "/srv/app" (Some "../../etc/passwd") Sample.site). reflexivity. Defined.

Lemma static_missing_witness :
  let r := Server.serveStaticFile "/srv/app" (Some "missing.html") Sample.site in
  fst r = inr (Replied 404 (Json (JObj [("error", JStr "File not found")])))
  /\ reads (snd r) = ["/srv/app/public/missing.html"].
Proof.
  apply (static_missing "/srv/app" (Some "missing.html") Sample.site); reflexivity.
Defined.

(** ** The store file: loading and saving *)











(** X7. A load never writes to a store file that exists: the world is left
    as it was, an unreadable file or text that is not JSON makes the load
    throw that error, and readable JSON is returned as parsed. *)
Theorem load_leaves_existing_file (w : world) :
  config_file w <> Absent -> config_file w <> Unreadable "ENOENT" ->
  let r := readConfigFile w in
  snd r = w
  /\ (forall code, config_file w = Unreadable code -> fst r = inl (FsError code))
  /\ (config_file w = Content Garbled -> fst r = inl SyntaxError)
  /\ (forall p, config_file w = Content (Json_text p) -> fst r = inr p).
Proof.
  intros Ha He. run_handler.
  destruct (config_file w) as [| code |[|p]] eqn:E; simpl.
  - now elim Ha.
  - destruct (String.eqb code "ENOENT") eqn:C.
    + apply String.eqb_eq in C. subst code. now elim He.
    + simpl. repeat split; try discriminate. now intros c [= <-].
  - repeat split; discriminate.
  - repeat split; try discriminate. now intros p' [= <-].
Qed.


(** ** The handlers as total functions of the request *)

Lemma later_refl (w : world) : later w w.
Proof. now exists []. Qed.


Lemma later_In (w w' : world) (f : option string) :
  later w w' -> In f (faults w') -> In f (faults w).
Proof. intros [u H] Hin. rewrite H. apply in_or_app. now right. Qed.

Lemma later_calm (w w' : world) : later w w' -> calm (faults w) = true -> calm (faults w') = true.
Proof.
  intros [u H]. rewrite H. unfold calm. rewrite forallb_app.
  intros E. now apply andb_prop in E.
Qed.



Section Replies.

Variable JSON_parse : string -> option jsval.
Variable Date_parse : string -> option Z.
Variable toISOString : Z -> string.
Variable encodeURIComponent : string -> option string.

Local Abbreviation put := (setDynamicConfig JSON_parse toISOString encodeURIComponent).
Local Abbreviation get := (getDynamicConfigData toISOString).

(** The entry [logError] makes of [e] at the time of [w]. *)
Local Abbreviation entry_of := (fun (e : js_error) (w : world) =>
  {| stamp := toISOString (clock w); logged := e |}).
Local Abbreviation reported := (reported toISOString).

(** X9. [logError] never throws, whatever the pending faults, and uses up
    one pending write: it appends one entry with the current time stamp to
    the error log, and only when that append is rejected prints the
    rejection on the console instead. Store file and clock are untouched. *)
Theorem logError_never_throws (e : js_error) (w : world) :
  let r := logError toISOString e w in
  fst r = inr tt
  /\ config_file (snd r) = config_file w
  /\ clock (snd r) = clock w
  /\ faults (snd r) = tl (faults w)
  /\ match hd None (faults w) with
     | Some code =>
         error_log (snd r) = error_log w
         /\ console (snd r) = (console w ++ [LogWriteFailed (FsError code)])%list
     | None =>
         error_log (snd r) = (error_log w ++ [entry_of e w])%list
         /\ console (snd r) = console w
     end.
Proof.
  cbv zeta. rewrite logError_run. destruct w as [cf el co fa cl di re].
  destruct fa as [|[c|] fa]; simpl; repeat split; reflexivity.
Qed.

(** The [catch] block run in [w1], of a handler that started in [w]. *)
Lemma caught_run (message : string) (e : js_error) (w w1 : world) :
  error_log w1 = error_log w -> clock w1 = clock w -> later w w1 ->
  let r := caught toISOString message e w1 in
  fst r = inr (failure 500 message)
  /\ config_file (snd r) = config_file w1
  /\ reported e w (snd r).
Proof.
  intros Hlog Ht Hl. unfold caught, bind, ret, reported. rewrite logError_run. simpl.
  rewrite <- Hlog, <- Ht.
  destruct w1 as [cf el co fa cl di re]. simpl in *.
  destruct fa as [|[c|] fa']; simpl; repeat split; auto.
  right. split; [reflexivity|]. exists c. split.
  - apply (later_In _ _ _ Hl). now left.
  - apply last_snoc.
Qed.

(** [setDynamicConfig] step by step, with the store calls kept whole. *)
Lemma put_run (req : request) (w : world) :
  put req w =
    let w0 := set_console
                (console w ++ [Peer (forwarded_for req) (remote_address req) (ip req)]) w in
    let fails := caught toISOString "An error occurred while saving data" in
    match body req with
    | JUndefined | JNull => fails TypeError w0
    | b =>
        let key := get_prop "key" b in
        let v := get_prop "data" b in
        if not_a_key key
        then (inr (failure 400 "Key is required and must be a non-empty string"), w0)
        else if negb (truthy v) then (inr (failure 400 "Data is required"), w0)
        else match payload_of JSON_parse v with
             | None => (inr (failure 400 "Invalid JSON data provided"), w0)
             | Some d =>
                 match readConfigFile w0 with
                 | (inl e, w1) => fails e w1
                 | (inr NotConfig, w1) => fails TypeError w1
                 | (inr (Config c), w1) =>
                     match key with
                     | JStr k =>
                         match writeConfigFile
                                 {| mappings := put_store toISOString k d (clock w1) (mappings c) |}
                                 w1 with
                         | (inl e, w2) => fails e w2
                         | (inr _, w2) =>
                             match encodeURIComponent (trim k) with
                             | Some encoded => (inr (saved k encoded), w2)
                             | None => fails URIError w2
                             end
                         end
                     | _ => fails TypeError w1
                     end
                 end
             end
    end.
Proof.
  unfold setDynamicConfig, caught.
  unfold console_write, destructured, now, mappings_of, call_trim, call_encodeURIComponent,
    bind, try_catch, throw, ret.
  cbv beta iota zeta.
  set (w0 := set_console _ w).
  destruct (body req) as [| |bb|x|s|items|fields] eqn:Hb; cbv beta iota zeta; try reflexivity.
  all: destruct (not_a_key _); [reflexivity|].
  all: destruct (truthy _); [|reflexivity]; unfold negb at 1 2; cbv beta iota zeta.
  all: rewrite (parse_data_payload JSON_parse).
  all: destruct (payload_of JSON_parse _) as [d|]; [|reflexivity]; cbv beta iota zeta.
  all: destruct (readConfigFile w0) as [[e|[c|]] w1]; [reflexivity| |reflexivity];
       cbv beta iota zeta.
  all: destruct (get_prop "key" _) as [| |bb'|x'|k|items'|fields']; try reflexivity;
       cbv beta iota zeta.
  all: replace (if negb (findIndex (fun mapping => strict_eq (key mapping) (JStr k)) (mappings c) =? -1)
                then <[Z.to_nat (findIndex (fun mapping => strict_eq (key mapping) (JStr k)) (mappings c))
                       := {| key := trim k; data := d; storedDate := toISOString (clock w1) |}]> (mappings c)
                else (mappings c ++ [{| key := trim k; data := d; storedDate := toISOString (clock w1) |}])%list)
         with (put_store toISOString k d (clock w1) (mappings c))
         by (unfold put_store, new_mapping, strict_eq;
             now destruct (findIndex (fun x => String.eqb (key x) k) (mappings c) =? -1)).
  all: destruct (writeConfigFile _ w1) as [[e|[]] w2]; [reflexivity|].
  all: now destruct (encodeURIComponent (trim k)).
Qed.


(** [getDynamicConfigData] step by step, with the store call kept whole. *)
Lemma get_run (req : request) (w : world) :
  get req w =
    let fails := caught toISOString "An error occurred while retrieving data" in
    match query req with
    | JUndefined | JNull => fails TypeError w
    | q =>
        let id := get_prop "id" q in
        if not_a_key id then (inr (failure 400 "Query parameter 'id' is required"), w)
        else match readConfigFile w with
             | (inl e, w1) => fails e w1
             | (inr NotConfig, w1) => fails TypeError w1
             | (inr (Config c), w1) =>
                 match id with
                 | JStr s =>
                     (inr (match List.find (fun m => String.eqb (key m) (trim s)) (mappings c) with
                           | Some m => found m
                           | None => not_found
                           end), w1)
                 | _ => fails TypeError w1
                 end
             end
    end.
Proof.
  unfold getDynamicConfigData, caught.
  unfold destructured, mappings_of, call_trim, bind, try_catch, throw, ret.
  cbv beta iota zeta.
  destruct (query req) as [| |bb|x|s|items|fields]; cbv beta iota zeta; try reflexivity.
  all: destruct (not_a_key _); [reflexivity|].
  all: destruct (readConfigFile w) as [[e|[c|]] w1]; [reflexivity| |reflexivity];
       cbv beta iota zeta.
  all: destruct (get_prop "id" _) as [| |bb'|x'|k|items'|fields']; try reflexivity;
       cbv beta iota zeta.
  all: now destruct (List.find _ (mappings c)).
Qed.


End Replies.

(** ** How the handlers compose *)

Lemma load_holds (w : world) (ms : list Mapping) :
  config_file w = holds ms -> readConfigFile w = (inr (Config {| mappings := ms |}), w).
Proof.
  intros H. unfold readConfigFile, try_catch, bind, readFile_config. now rewrite H.
Qed.

Lemma found_inj (m m' : Mapping) : found m = found m' -> m = m'.
Proof. destruct m, m'. unfold found. simpl. now intros [= -> -> ->]. Qed.

Section Searches.

Context {A : Type} (p : A -> bool).





End Searches.



Section Composition.

Variable JSON_parse : string -> option jsval.
Variable Date_parse : string -> option Z.
Variable toISOString : Z -> string.
Variable encodeURIComponent : string -> option string.

Local Abbreviation put := (setDynamicConfig JSON_parse toISOString encodeURIComponent).
Local Abbreviation get := (getDynamicConfigData toISOString).
Local Abbreviation expire := (removeDayOldData Date_parse toISOString).
Local Abbreviation fresh_at := (fun t m => lt_one (compareDateInDays Date_parse t (storedDate m))).
Local Abbreviation kept_at := (filteredMappings Date_parse).

Lemma caught_fails (message : string) (e : js_error) (w : world) :
  fst (caught toISOString message e w) = inr (failure 500 message).
Proof. unfold caught, bind, ret. now rewrite logError_run. Qed.

(** A lookup on a store file that holds [ms]. *)
Lemma get_on_store (req : request) (w : world) (ms : list Mapping) (m : Mapping) :
  config_file w = holds ms ->
  fst (get req w) = inr (found m) ->
  exists s, List.find (fun x => String.eqb (key x) s) ms = Some m.
Proof.
  intros Hc. rewrite get_run. cbv zeta. rewrite (load_holds w ms Hc).
  pose proof (caught_fails "An error occurred while retrieving data") as Hf.
  destruct (query req) as [| |bb|x|s|items|fields]; cbv beta iota zeta.
  1,2: rewrite Hf; discriminate.
  all: destruct (not_a_key _); [discriminate|].
  all: destruct (get_prop "id" _) as [| |bb'|x'|k|items'|fields'];
       try (rewrite Hf; discriminate).
  all: simpl; destruct (List.find _ ms) as [m'|] eqn:F; [|discriminate].
  all: intros E; assert (m' = m) by (apply found_inj; congruence); subst m'; eauto.
Qed.

(** The store file after a sweep: the kept mappings, as they were read when
    nothing was dropped and as [JSON.stringify] writes them otherwise. *)
Lemma sweep_leaves (req : request) (w : world) ms :
  loads w ms -> calm (faults w) = true ->
  let w1 := snd (expire req w) in
  clock w1 = clock w
  /\ exists ms1, config_file w1 = holds ms1
                 /\ (ms1 = kept_at (clock w) ms \/ ms1 = map written (kept_at (clock w) ms)).
Proof.
  intros Hl Hc w1.
  destruct (sweep_filters Date_parse toISOString req w ms Hl Hc) as (_ & Hf & _).
  split.
  - subst w1. clear Hf. unfold loads in Hl. revert Hl.
    destruct w as [cf el co fa cl di re]. run_handler.
    destruct cf as [| code |[|[[ms0]|]]]; simpl in *.
    + destruct fa as [|[c1|] fa]; simpl in *; try discriminate; intros [= <-]; reflexivity.
    + destruct (String.eqb code "ENOENT"); simpl; [|discriminate].
      destruct fa as [|[c1|] fa]; simpl in *; try discriminate; intros [= <-]; reflexivity.
    + discriminate.
    + intros [= <-]. simpl.
      destruct (length (filteredMappings Date_parse cl ms0) =? length ms0)%nat; simpl;
        [reflexivity|].
      destruct fa as [|[c1|] fa]; simpl in *; try discriminate; reflexivity.
    + discriminate.
  - fold w1 in Hf. rewrite Hf.
    destruct (length _ =? length ms)%nat; eexists; (split; [reflexivity|]); auto.
Qed.

(** X12. After the sweep of a request, on a store that loads and with no
    write rejected, a lookup answers 200 only with a mapping of the store
    that is less than a day old, returned as it was read or as
    [JSON.stringify] wrote it back. *)
Theorem get_after_sweep_is_fresh (any get_req : request) (w : world) ms m :
  loads w ms -> calm (faults w) = true ->
  fst (get get_req (snd (expire any w))) = inr (found m) ->
  (exists m0, In m0 ms /\ (m = m0 \/ m = written m0))
  /\ exists d, Date_parse (storedDate m) = Some d /\ clock w - d < 86400000.
Proof.
  intros Hl Hc Hg.
  destruct (sweep_leaves any w ms Hl Hc) as (_ & ms1 & Hf & Hms).
  destruct (get_on_store get_req _ _ m Hf Hg) as (s & F).
  apply List.find_some in F as (Hin & _).
  destruct Hms as [->| ->].
  - apply kept_iff in Hin as (Hin & Hd). eauto.
  - apply in_map_iff in Hin as (m0 & <- & Hin).
    apply kept_iff in Hin as (Hin & Hd). eauto.
Qed.



Lemma sweep_silent (req : request) (w : world) (ms : list Mapping) :
  config_file w = holds ms ->
  (forall m, In m ms -> fresh_at (clock w) m = true) ->
  expire req w = (inr Next, w).
Proof.
  intros Hc Hall.
  unfold removeDayOldData, sweep, try_catch, bind, mappings_of, now, ret.
  rewrite (load_holds w ms Hc). cbv beta iota zeta.
  change (mappings {| mappings := ms |}) with ms.
  assert (E : filteredMappings Date_parse (clock w) ms = ms).
  { clear Hc. unfold filteredMappings. induction ms as [|a l IH]; simpl; [reflexivity|].
    rewrite (Hall a (or_introl eq_refl)). f_equal. apply IH.
    intros m Hm. apply Hall. now right. }
  rewrite E, Nat.eqb_refl. reflexivity.
Qed.

(** X14. When no mapping of the store file is a day old, the sweep attempts
    no write: the world is left exactly as it was, pending faults included. *)
Theorem sweep_with_nothing_expired_is_silent (req : request) (w : world) ms :
  config_file w = holds ms ->
  (forall m, In m ms ->
     exists d, Date_parse (storedDate m) = Some d /\ clock w - d < 86400000) ->
  expire req w = (inr Next, w).
Proof.
  intros Hc Hall. apply (sweep_silent req w ms Hc).
  intros m Hm. apply lt_one_age. now apply Hall.
Qed.

(** X15. A second sweep at the same clock value changes nothing: after a
    sweep on a store that loads and with no write rejected, the next sweep
    leaves the world as it is. *)
Theorem sweep_twice_is_sweep_once (req req' : request) (w : world) ms :
  loads w ms -> calm (faults w) = true ->
  let w1 := snd (expire req w) in
  expire req' w1 = (inr Next, w1).
Proof.
  intros Hl Hc w1.
  destruct (sweep_leaves req w ms Hl Hc) as (Ht & ms1 & Hf & Hms).
  fold w1 in Ht, Hf.
  apply (sweep_silent req' w1 _ Hf).
  intros m Hm. rewrite Ht. destruct Hms as [->| ->].
  - unfold filteredMappings in Hm. now apply List.filter_In in Hm.
  - apply in_map_iff in Hm as (m0 & <- & Hm).
    unfold filteredMappings in Hm. now apply List.filter_In in Hm.
Qed.



End Composition.

(** ** The static route and the log route *)

Section Routes.

Variable toISOString : Z -> string.
Variable dirname : string.

Local Abbreviation serve := (Server.serveStaticFile dirname).
Local Abbreviation path_of := (Server.filePath dirname).
Local Abbreviation root := (Server.PUBLIC_DIR dirname).
Local Abbreviation logs := (Logs.returnLogs toISOString dirname).
Local Abbreviation log_path := (Logs.LOGGER_PATH dirname).

Lemma static_run (param : option string) (w : world) :
  serve param w =
    if negb (startsWith (path_of param) root)
    then (inr (Replied 403 (Json (JObj [("error", JStr "Forbidden")]))), w)
    else
      let w' := set_reads (reads w ++ [path_of param]) w in
      match disk w (path_of param) with
      | NoEntry => (inr (Replied 404 (Json (JObj [("error", JStr "File not found")]))), w')
      | Refuses code =>
          if String.eqb code "ENOENT"
          then (inr (Replied 404 (Json (JObj [("error", JStr "File not found")]))), w')
          else (inr (NextErr (FsError code)), w')
      | Bytes b =>
          (inr (Replied 200
                  (Raw (match Server.mime_type (toLowerCase (Path.extname (path_of param)))
                                Server.MIME_TYPES with
                        | Some t => t
                        | None => "application/octet-stream"
                        end) b)), w')
      end.
Proof.
  unfold Server.serveStaticFile, try_catch, bind, readFile, ret. cbv zeta.
  destruct (negb (startsWith (path_of param) root)); [reflexivity|].
  destruct (disk w (path_of param)) as [|b|code]; try reflexivity.
  simpl. now destruct (String.eqb code "ENOENT").
Qed.

(** X17. [serveStaticFile] never throws and never writes: it answers 403,
    404, or 200 with the bytes of the file at the joined path, and hands any
    read error other than a missing file to [next]; the store file, the
    error log, the console and the pending writes are untouched and at most
    one path is read. *)
Theorem static_settles_without_writing (param : option string) (w : world) :
  let r := serve param w in
  (exists o, fst r = inr o
     /\ (o = Replied 403 (Json (JObj [("error", JStr "Forbidden")]))
         \/ o = Replied 404 (Json (JObj [("error", JStr "File not found")]))
         \/ (exists ctype b, o = Replied 200 (Raw ctype b)
                             /\ disk w (path_of param) = Bytes b)
         \/ (exists code, o = NextErr (FsError code)
                          /\ disk w (path_of param) = Refuses code
                          /\ code <> "ENOENT")))
  /\ config_file (snd r) = config_file w /\ error_log (snd r) = error_log w
  /\ console (snd r) = console w /\ faults (snd r) = faults w
  /\ (reads (snd r) = reads w \/ reads (snd r) = (reads w ++ [path_of param])%list).
Proof.
  cbv zeta. rewrite static_run.
  destruct (negb (startsWith (path_of param) root)); [simpl; eauto 10|].
  cbv zeta. destruct (disk w (path_of param)) as [|b|code] eqn:D.
  - destruct w; simpl; eauto 12.
  - destruct w; simpl; split; [eexists; split; [reflexivity|]|]; eauto 12.
  - destruct (String.eqb code "ENOENT") eqn:C.
    + destruct w; simpl; eauto 12.
    + apply String.eqb_neq in C. destruct w; simpl.
      split; [eexists; split; [reflexivity|]|]; eauto 12.
Qed.

Lemma logs_run (req : request) (w : world) :
  logs req w =
    let w' := set_reads (reads w ++ [log_path]) w in
    match disk w log_path with
    | Bytes b => (inr (Replied 200 (Raw "text/html; charset=utf-8" b)), w')
    | NoEntry => (inr (failure 404 "Log file not found"), w')
    | Refuses code =>
        if String.eqb code "ENOENT" then (inr (failure 404 "Log file not found"), w')
        else caught toISOString "Error reading log file" (FsError code) w'
    end.
Proof.
  unfold Logs.returnLogs, caught, try_catch, readFile. unfold bind at 1. cbv zeta.
  destruct (disk w log_path) as [|b|code]; try reflexivity.
  simpl. now destruct (String.eqb code "ENOENT").
Qed.

(** X18. [returnLogs] never throws and never touches the store file: it
    answers 200 with the content of the log file, 404 when the file is
    missing, and 500 when the read fails otherwise, with the error in the
    error log unless a pending fault rejected that append. *)
Theorem returnLogs_replies (req : request) (w : world) :
  let r := logs req w in
  config_file (snd r) = config_file w
  /\ reads (snd r) = (reads w ++ [log_path])%list
  /\ match disk w log_path with
     | Bytes b =>
         fst r = inr (Replied 200 (Raw "text/html; charset=utf-8" b))
         /\ error_log (snd r) = error_log w
     | NoEntry =>
         fst r = inr (failure 404 "Log file not found") /\ error_log (snd r) = error_log w
     | Refuses code =>
         if String.eqb code "ENOENT"
         then fst r = inr (failure 404 "Log file not found")
              /\ error_log (snd r) = error_log w
         else fst r = inr (failure 500 "Error reading log file")
              /\ reported toISOString (FsError code) w (snd r)
     end.
Proof.
  cbv zeta. rewrite logs_run. cbv zeta.
  set (w' := set_reads _ w).
  assert (F : config_file w' = config_file w /\ error_log w' = error_log w
              /\ clock w' = clock w /\ later w w'
              /\ reads w' = (reads w ++ [log_path])%list).
  { destruct w; simpl. repeat split. now exists []. }
  destruct F as (Fc & Fl & Ft & Fla & Fr).
  destruct (disk w log_path) as [|b|code] eqn:D; [simpl; auto..|].
  destruct (String.eqb code "ENOENT") eqn:C; [simpl; auto|].
  pose proof (caught_run toISOString "Error reading log file" (FsError code) w w' Fl Ft Fla)
    as (H1 & H2 & H3).
  split; [congruence|]. split; [|auto].
  unfold caught, bind, ret. rewrite logError_run. subst w'.
  destruct w as [cf el co fa cl di re]. simpl. now destruct fa as [|[c|] rest].
Qed.

End Routes.

(** ** The access log *)

Section AccessLog.

Import Logger.

Variable toISOString : Z -> string.
Variables globe cross tick : string.
Variable cwd : string.

Local Abbreviation log := (logger toISOString globe cwd).
Local Abbreviation log_file := (logger_txt cwd).

Lemma logger_run (c : client) (p : process) :
  log c p
  = (inr Next,
     {| os := os p; stderr := stderr p;
        listeners := (listeners p
                      ++ [{| on_method := padEnd 6 (method c); on_url := padEnd 30 (url c);
                             responseTime := clock (os p) |}])%list;
        inflight := (inflight p
                     ++ [{| target := log_file;
                            line := logEntry globe c (toISOString (clock (os p))) |}])%list |}).
Proof.
  unfold logger, pbind, lift, start, listen, pret, now. cbv beta iota zeta.
  destruct p as [w err ls fl]. destruct w. reflexivity.
Qed.

Lemma lookup_last {A : Type} (l : list A) (a : A) : (l ++ [a])%list !! length l = Some a.
Proof. induction l as [|x l IH]; [reflexivity|exact IH]. Qed.

Lemma delete_last {A : Type} (l : list A) (a : A) : delete (length l) (l ++ [a])%list = l.
Proof. induction l as [|x l IH]; [reflexivity|]. simpl. f_equal. exact IH. Qed.


(** X20. A request for the logs may or may not see its own access line.
    Let [./logger.txt] under the working directory be the file [returnLogs]
    reads, let it hold [before], and let no fault be pending. When the
    logger's append is still in flight as [returnLogs] reads the file, the
    reply is 200 with [before]; when it has completed, the reply is 200 with
    [before] followed by the access line. *)
Theorem own_access_line_races_with_getLogs (dirname : string) (c : client)
  (req : request) (p : process) (before : string) :
  log_file = Logs.LOGGER_PATH dirname ->
  disk (os p) log_file = Bytes before ->
  hd None (faults (os p)) = None ->
  let logs := lift (Logs.returnLogs toISOString dirname req) in
  fst (pbind (log c) (fun _ => logs) p)
  = inr (Replied 200 (Raw "text/html; charset=utf-8" before))
  /\ fst (pbind (log c) (fun _ => pbind (settle (length (inflight p))) (fun _ => logs)) p)
     = inr (Replied 200
              (Raw "text/html; charset=utf-8"
                 (before ++ logEntry globe c (toISOString (clock (os p)))))).
Proof.
  intros Hpath Hfile Hfault. cbv zeta.
  split; unfold pbind at 1; rewrite logger_run.
  - unfold lift. cbn [os]. rewrite logs_run. cbv zeta. rewrite <- Hpath, Hfile. reflexivity.
  - unfold pbind, settle. cbn [inflight os stderr listeners].
    rewrite lookup_last, delete_last. cbn [target line].
    unfold appendFile, fs_write. rewrite Hfile.
    destruct p as [w err ls fl]. cbn [os stderr listeners inflight] in *.
    destruct w as [cf el co fa cl di re]. cbn [disk faults clock] in *.
    destruct fa as [|[code|] rest]; [|discriminate|].
    + unfold lift. cbn [os]. rewrite logs_run. cbv zeta. rewrite <- Hpath.
      cbn. rewrite String.eqb_refl. reflexivity.
    + unfold lift. cbn [os]. rewrite logs_run. cbv zeta. rewrite <- Hpath.
      cbn. rewrite String.eqb_refl. reflexivity.
Qed.

End AccessLog.

(** ** The application *)

Lemma steady_ret {A : Type} (a : A) : steady (ret a).
Proof. intros w. reflexivity. Qed.

Lemma steady_throw {A : Type} (e : js_error) : steady (@throw A e).
Proof. intros w. reflexivity. Qed.

Lemma steady_bind {A B : Type} (m : M A) (k : A -> M B) :
  steady m -> (forall a, steady (k a)) -> steady (bind m k).
Proof.
  intros Hm Hk w. unfold bind. specialize (Hm w).
  destruct (m w) as [[e|a] w1]; simpl in *; [exact Hm|].
  rewrite Hk. exact Hm.
Qed.

Lemma steady_try_catch {A : Type} (m : M A) (h : js_error -> M A) :
  steady m -> (forall e, steady (h e)) -> steady (try_catch m h).
Proof.
  intros Hm Hh w. unfold try_catch. specialize (Hm w).
  destruct (m w) as [[e|a] w1]; simpl in *; [|exact Hm].
  rewrite Hh. exact Hm.
Qed.

Lemma steady_now : steady now.
Proof. intros w. reflexivity. Qed.

Lemma steady_console_write (ev : console_event) : steady (console_write ev).
Proof. intros w. reflexivity. Qed.

Lemma steady_fs_write (commit : world -> world) :
  (forall w, clock (commit w) = clock w) -> steady (fs_write commit).
Proof.
  intros H w. unfold fs_write.
  destruct (faults w) as [|[code|] rest]; simpl; rewrite ?H; reflexivity.
Qed.

Lemma steady_readFile_config : steady readFile_config.
Proof. intros w. unfold readFile_config. now destruct (config_file w). Qed.

Lemma steady_readFile (path : string) : steady (readFile path).
Proof. intros w. unfold readFile. cbv zeta. now destruct (disk w path). Qed.

Ltac steady :=
  repeat first
    [ assumption | apply steady_ret | apply steady_throw | apply steady_now
    | apply steady_console_write | apply steady_readFile_config | apply steady_readFile
    | apply steady_fs_write; intros []; reflexivity
    | apply steady_bind; [|intros ?]
    | apply steady_try_catch; [|intros ?]
    | match goal with
      | |- steady (match ?x with _ => _ end) => destruct x
      | |- steady (if ?x then _ else _) => destruct x
      end
    | progress cbv zeta ].

Section Pipeline.

Import Logger App.

Variable JSON_parse : string -> option jsval.
Variable Date_parse : string -> option Z.
Variable toISOString : Z -> string.
Variable encodeURIComponent : string -> option string.
Variables globe cross tick : string.
Variable cwd : string.
Variable dirname : string.
Variable NODE_ENV : option string.
Variable message_of : js_error -> string.

Local Abbreviation expire := (removeDayOldData Date_parse toISOString).
Local Abbreviation route_handler :=
  (handler JSON_parse toISOString encodeURIComponent dirname).
Local Abbreviation chain :=
  (respond JSON_parse Date_parse toISOString encodeURIComponent globe cwd dirname
     NODE_ENV message_of).
Local Abbreviation application :=
  (app JSON_parse Date_parse toISOString encodeURIComponent globe cross tick cwd dirname
     NODE_ENV message_of).
Local Abbreviation final := (settled_reply NODE_ENV).

Lemma logError_steady (e : js_error) : steady (logError toISOString e).
Proof. unfold logError. steady. Qed.

Lemma readConfigFile_steady : steady readConfigFile.
Proof. unfold readConfigFile, writeConfigFile, parse_text. steady. Qed.

Lemma expire_steady (req : request) : steady (expire req).
Proof.
  unfold removeDayOldData, sweep, mappings_of, writeConfigFile.
  pose proof readConfigFile_steady. pose proof logError_steady.
  repeat first [assumption | apply steady_bind; [|intros ?] | apply steady_try_catch; [|intros ?]
               | progress steady ].
Qed.

Lemma handler_steady (r : route) (req : request) : steady (route_handler r req).
Proof.
  pose proof readConfigFile_steady. pose proof logError_steady.
  destruct r; unfold handler, setDynamicConfig, getDynamicConfigData, Logs.returnLogs,
    Server.serveStaticFile, destructured, mappings_of, call_trim, call_encodeURIComponent,
    parse_data, writeConfigFile.
  all: repeat first [assumption | apply steady_bind; [|intros ?]
                    | apply steady_try_catch; [|intros ?] | progress steady ].
Qed.

Lemma plain_failure (s : Z) (message : string) :
  In s [200; 400; 403; 404; 500] -> plain (failure s message).
Proof. intros H. split; [exact H|]. intros _. eexists. split; reflexivity. Qed.

Lemma plain_caught (message : string) (e : js_error) (w : world) :
  exists o, fst (caught toISOString message e w) = inr o /\ plain o.
Proof.
  pose proof (caught_run toISOString message e w w eq_refl eq_refl (later_refl w)) as (H & _).
  eexists. split; [exact H|]. apply plain_failure. simpl. auto 6.
Qed.

Lemma expire_next (req : request) (w : world) : fst (expire req w) = inr Next.
Proof.
  unfold removeDayOldData, try_catch.
  pose proof (sweep_yields_next Date_parse w) as Hn.
  destruct (sweep Date_parse w) as [[e|o] w1]; simpl in Hn; [|now subst o].
  unfold bind, console_write, ret. rewrite logError_run.
  now destruct (faults w1) as [|[code|] rest].
Qed.

Lemma handler_settles (r : route) (req : request) (w : world) :
  exists o, fst (route_handler r req w) = inr o /\ plain o.
Proof.
  assert (Ok : forall (o : outcome) (w' : world),
            plain o -> exists o', fst (inr o : js_error + outcome, w') = inr o' /\ plain o').
  { intros o w' H. exists o. auto. }
  destruct r as [| | | |f|]; unfold handler.
  - rewrite put_run. cbv zeta.
    destruct (body req); cbv beta iota zeta; try apply plain_caught.
    all: destruct (not_a_key _); [apply Ok, plain_failure; simpl; auto|].
    all: destruct (negb _); [apply Ok, plain_failure; simpl; auto|].
    all: destruct (payload_of _ _); [|apply Ok, plain_failure; simpl; auto].
    all: destruct (readConfigFile _) as [[e|[c|]] w1]; try apply plain_caught.
    all: destruct (get_prop "key" _); try apply plain_caught.
    all: destruct (writeConfigFile _ _) as [[e|[]] w2]; try apply plain_caught.
    all: destruct (encodeURIComponent _); try apply plain_caught.
    all: apply Ok; split; [simpl; auto|discriminate].
  - rewrite get_run. cbv zeta.
    destruct (query req); cbv beta iota zeta; try apply plain_caught.
    all: destruct (not_a_key _); [apply Ok, plain_failure; simpl; auto|].
    all: destruct (readConfigFile _) as [[e|[c|]] w1]; try apply plain_caught.
    all: destruct (get_prop "id" _); try apply plain_caught.
    all: apply Ok; destruct (List.find _ _);
         [split; [simpl; auto|discriminate]|apply plain_failure; simpl; auto 6].
  - rewrite logs_run. cbv zeta.
    destruct (disk w _) as [|b|code].
    + apply Ok, plain_failure. simpl. auto 6.
    + apply Ok. split; [simpl; auto|discriminate].
    + destruct (String.eqb code "ENOENT"); [apply Ok, plain_failure; simpl; auto 6|].
      apply (plain_caught "Error reading log file").
  - rewrite static_run.
    destruct (negb _); [apply Ok; split; [simpl; auto 6|discriminate]|]. cbv zeta.
    destruct (disk w _) as [|b|code].
    + apply Ok. split; [simpl; auto 6|discriminate].
    + apply Ok. split; [simpl; auto 6|discriminate].
    + destruct (String.eqb code "ENOENT"); apply Ok; [|exact I].
      split; [simpl; auto 6|discriminate].
  - rewrite static_run.
    destruct (negb _); [apply Ok; split; [simpl; auto 6|discriminate]|]. cbv zeta.
    destruct (disk w _) as [|b|code].
    + apply Ok. split; [simpl; auto 6|discriminate].
    + apply Ok. split; [simpl; auto 6|discriminate].
    + destruct (String.eqb code "ENOENT"); apply Ok; [|exact I].
      split; [simpl; auto 6|discriminate].
  - apply Ok. exact I.
Qed.

Lemma appendFile_steady (path text : string) : steady (appendFile path text).
Proof.
  intros w. unfold appendFile.
  destruct (disk w path); [| |reflexivity];
    refine (steady_fs_write _ _ w); intros []; reflexivity.
Qed.

(** Completed appends change neither the clock nor the listeners. *)
Lemma settle_run (n : nat) (p : process) :
  exists p', settle n p = (inr tt, p')
    /\ clock (os p') = clock (os p) /\ listeners p' = listeners p.
Proof.
  unfold settle. destruct (inflight p !! n) as [a|]; [|now exists p].
  pose proof (appendFile_steady (target a) (line a) (os p)) as Hc.
  destruct (appendFile (target a) (line a) (os p)) as [r w].
  eexists. split; [reflexivity|]. now split.
Qed.

Lemma settle_each_run (order : list nat) (p : process) :
  exists p', settle_each order p = (inr tt, p')
    /\ clock (os p') = clock (os p) /\ listeners p' = listeners p.
Proof.
  revert p. induction order as [|n order IH]; intros p; [now exists p|].
  simpl. unfold pbind.
  destruct (settle_run n p) as (p1 & -> & C1 & L1).
  destruct (IH p1) as (p2 & -> & C2 & L2).
  exists p2. split; [reflexivity|]. split; congruence.
Qed.

Lemma errorHandler_final (e : js_error) (p : process) :
  exists o, fst (errorHandler NODE_ENV message_of e p) = inr o /\ final o.
Proof.
  unfold errorHandler, pbind, print, pret. simpl.
  eexists. split; [reflexivity|]. unfold settled_reply. do 2 eexists. split; [reflexivity|].
  split; [simpl; auto 6|]. intros Hdev. split; [simpl; auto 6|]. intros _.
  eexists. split; [reflexivity|]. simpl.
  destruct NODE_ENV as [env|]; [|reflexivity].
  destruct (String.eqb env "development") eqn:E; [|reflexivity].
  apply String.eqb_eq in E. subst env. now elim Hdev.
Qed.

Lemma expire_run (req : request) (w : world) :
  exists w1, expire req w = (inr Next, w1) /\ clock w1 = clock w.
Proof.
  pose proof (expire_next req w) as H. pose proof (expire_steady req w) as C.
  destruct (expire req w) as [[e|o] w1]; simpl in H, C; [discriminate|].
  injection H as ->. now exists w1.
Qed.

Lemma handler_run (r : route) (req : request) (w : world) :
  exists o w1, route_handler r req w = (inr o, w1) /\ plain o /\ clock w1 = clock w.
Proof.
  destruct (handler_settles r req w) as (o & H & Hp).
  pose proof (handler_steady r req w) as C.
  destruct (route_handler r req w) as [[e|o'] w1]; simpl in H, C; [discriminate|].
  injection H as ->. now exists o, w1.
Qed.

(** The chain: a settled reply, one more listener, the clock as it was. *)
Lemma respond_run (x : exchange) (p : process) :
  exists o p', chain x p = (inr o, p') /\ final o
    /\ clock (os p') = clock (os p)
    /\ listeners p'
       = (listeners p
          ++ [{| on_method := padEnd 6 (method (client_of x));
                 on_url := padEnd 30 (url (client_of x));
                 responseTime := clock (os p) |}])%list.
Proof.
  unfold respond, and_then.
  unfold pbind at 1. unfold lift at 1.
  destruct (expire_run (request_of x) (os p)) as (w1 & -> & C1).
  unfold pbind at 1. rewrite logger_run. cbn [os stderr listeners inflight].
  unfold pbind at 1.
  set (p2 := {| os := w1; stderr := _; listeners := _; inflight := _ |}).
  destruct (settle_each_run (completed x) p2) as (p3 & -> & C3 & L3).
  unfold pbind at 1. unfold lift at 1.
  destruct (handler_run (matched x) (request_of x) (os p3)) as (o & w4 & -> & Hp & C4).
  assert (Hc : clock w4 = clock (os p)) by (rewrite C4, C3; subst p2; simpl; congruence).
  assert (Hl : listeners p3
               = (listeners p
                  ++ [{| on_method := padEnd 6 (method (client_of x));
                         on_url := padEnd 30 (url (client_of x));
                         responseTime := clock (os p) |}])%list).
  { rewrite L3. subst p2. simpl. now rewrite C1. }
  destruct o as [s pl| |e].
  - do 2 eexists. split; [reflexivity|]. split.
    + exists s, pl. split; [reflexivity|]. split; [apply Hp|]. intros _. exact Hp.
    + simpl. auto.
  - do 2 eexists. split; [reflexivity|]. split.
    + unfold notFound. do 2 eexists. split; [reflexivity|]. split; [simpl; auto 6|].
      intros _. apply plain_failure. simpl. auto 6.
    + simpl. auto.
  - destruct (errorHandler_final e {| os := w4; stderr := stderr p3;
                                      listeners := listeners p3; inflight := inflight p3 |})
      as (o & Ho & Hf).
    unfold errorHandler, pbind, print, pret in *. cbn [fst] in Ho. injection Ho as <-.
    do 2 eexists. split; [reflexivity|]. split; [exact Hf|]. simpl. auto.
Qed.

(** The application: the reply of the chain, and one append to
    [./performance.txt] started as the response finishes. *)
Lemma app_run (x : exchange) (p : process) :
  exists s pl p', application x p = (inr (Replied s pl), p')
    /\ final (Replied s pl)
    /\ exists earlier,
         inflight p'
         = (earlier
            ++ [{| target := performance_txt cwd;
                   line := perfEntry cross tick
                             {| on_method := padEnd 6 (method (client_of x));
                                on_url := padEnd 30 (url (client_of x));
                                responseTime := clock (os p) |}
                             s (took x) |}])%list.
Proof.
  unfold app. unfold pbind at 1. unfold new_response.
  set (p0 := {| os := os p; stderr := stderr p; listeners := []; inflight := inflight p |}).
  unfold pbind at 1.
  destruct (respond_run x p0) as (o & p1 & -> & Hf & Hc & Hl).
  destruct Hf as (s & pl & -> & Hs & Hp).
  exists s, pl.
  unfold pbind at 1. unfold advance, lift at 1. cbv beta iota zeta.
  unfold pbind at 1. cbn [listeners os stderr inflight status_of].
  rewrite Hl. subst p0. cbn [app emit_finish os listeners].
  unfold finished, pbind, lift, start, now, pret. cbn.
  eexists. split; [reflexivity|]. split; [exists s, pl; auto|].
  exists (inflight p1). cbn [inflight]. cbn [os] in Hc. rewrite Hc.
  replace (clock (os p) + took x - clock (os p)) with (took x) by lia. reflexivity.
Qed.

(** X21. Every request that reaches the sweep is answered: the application
    never throws and replies with status 200, 400, 403, 404 or 500, whatever
    the route, the files, the pending faults and the appends that complete
    before the route's handler runs. *)
Theorem app_always_replies (x : exchange) (p : process) :
  exists s pl,
    fst (application x p) = inr (Replied s pl) /\ In s [200; 400; 403; 404; 500].
Proof.
  destruct (app_run x p) as (s & pl & p' & Hr & (s' & pl' & [= <- <-] & Hs & _) & _).
  exists s, pl. rewrite Hr. split; [reflexivity|exact Hs].
Qed.

(** X22. Outside development mode no reply with status 500 carries the
    text of the error: its JSON body has no [error] member. *)
Theorem app_hides_error_text (x : exchange) (p : process) (s : Z) (pl : payload) :
  NODE_ENV <> Some "development" ->
  fst (application x p) = inr (Replied s pl) -> s = 500 ->
  exists body, pl = Json body /\ get_prop "error" body = JUndefined.
Proof.
  intros Hdev Hr Hs.
  destruct (app_run x p) as (s1 & pl1 & p' & Hr1 & (s' & pl' & [= <- <-] & _ & Hp) & _).
  rewrite Hr1 in Hr. injection Hr as -> ->.
  now apply (Hp Hdev).
Qed.


End Pipeline.

(** ** The store and the routes on sample worlds *)


Lemma load_leaves_existing_file_witness :
  snd (readConfigFile (world_of (Content Garbled) Sample.noon [Some "ENOSPC"]))
  = world_of (Content Garbled) Sample.noon [Some "ENOSPC"]
  /\ fst (readConfigFile (world_of (Content Garbled) Sample.noon [Some "ENOSPC"]))
     = inl SyntaxError.
Proof.
  pose proof (load_leaves_existing_file
                (world_of (Content Garbled) Sample.noon [Some "ENOSPC"])
                ltac:(discriminate) ltac:(discriminate)) as (H1 & _ & H2 & _).
  split; [exact H1|exact (H2 eq_refl)].
Defined.

(** After the sweep of [Sample.aged] the key [h23] is found, and the mapping
    returned is less than a day old. *)
Lemma get_after_sweep_is_fresh_witness :
  (exists m0,
     In m0 [Sample.stored_at "h23" JNull (Sample.noon - 23 * Sample.hour);
            Sample.stored_at "h25" JNull (Sample.noon - 25 * Sample.hour);
            {| key := "bad"; data := JNull; storedDate := "yesterday" |};
            Sample.stored_at "ahead" JNull (Sample.noon + Sample.hour)]
     /\ (Sample.stored_at "h23" JNull (Sample.noon - 23 * Sample.hour) = m0
         \/ Sample.stored_at "h23" JNull (Sample.noon - 23 * Sample.hour) = written m0))
  /\ exists d, Runtime.Date_parse (Runtime.toISOString (Sample.noon - 23 * Sample.hour)) = Some d
               /\ Sample.noon - d < 86400000.
Proof.
  apply (get_after_sweep_is_fresh Runtime.Date_parse Runtime.toISOString
           Sample.any_request (get_request (JStr "h23")) Sample.aged _
           (Sample.stored_at "h23" JNull (Sample.noon - 23 * Sample.hour))
           eq_refl eq_refl).
  vm_compute. reflexivity.
Defined.


(** Five hours after the put nothing is expired: the sweep is silent even
    with a fault pending. *)
Lemma sweep_with_nothing_expired_is_silent_witness :
  let w := world_of (config_file Sample.with_a) Sample.noon [Some "ENOSPC"] in
  Sample.expire Sample.any_request w = (inr Next, w).
Proof.
  apply (sweep_with_nothing_expired_is_silent Runtime.Date_parse Runtime.toISOString
           Sample.any_request
           (world_of (config_file Sample.with_a) Sample.noon [Some "ENOSPC"])
           _ eq_refl).
  intros m [<-|[]]. exists (Sample.noon - 5 * Sample.hour). split; [reflexivity|].
  vm_compute. reflexivity.
Defined.

Lemma sweep_twice_is_sweep_once_witness :
  let w1 := snd (Sample.expire Sample.any_request Sample.aged) in
  Sample.expire Sample.any_request w1 = (inr Next, w1).
Proof.
  apply (sweep_twice_is_sweep_once Runtime.Date_parse Runtime.toISOString
           Sample.any_request Sample.any_request Sample.aged _ eq_refl eq_refl).
Defined.


(** ** The access log and the application on a sample deployment *)

(** In [/srv/app] the logger writes the file that [returnLogs] reads: the
    reply has the earlier line alone, or followed by the access line. *)
Lemma own_access_line_races_with_getLogs_witness :
  let log := Logger.logger Runtime.toISOString Demo.globe "/srv/app" Demo.browser in
  let logs := Logger.lift (Logs.returnLogs Runtime.toISOString "/srv/app/utils"
                             Sample.any_request) in
  let p := Demo.process_of Demo.with_log in
  fst (Logger.pbind log (fun _ => logs) p)
  = inr (Replied 200 (Raw "text/html; charset=utf-8" "earlier line"))
  /\ fst (Logger.pbind log (fun _ => Logger.pbind (Logger.settle 0) (fun _ => logs)) p)
     = inr (Replied 200
              (Raw "text/html; charset=utf-8"
                 ("earlier line"
                  ++ Logger.logEntry Demo.globe Demo.browser "2026-11-02T12:00:00.000Z"))).
Proof.
  exact (own_access_line_races_with_getLogs Runtime.toISOString Demo.globe "/srv/app"
           "/srv/app/utils" Demo.browser Sample.any_request
           (Demo.process_of Demo.with_log) "earlier line" eq_refl eq_refl eq_refl).
Defined.

(** A request for a directory below [public] fails with EISDIR, which the
    error handler answers with 500: in production mode the body has no
    [error] member. *)
Lemma app_hides_error_text_witness :
  fst (Demo.application Demo.get_docs (Demo.process_of Demo.with_directory))
  = inr (Replied 500
           (Json (JObj [("success", JBool false);
                        ("message", JStr "Internal server error");
                        ("error", JUndefined)])))
  /\ exists body,
       Json (JObj [("success", JBool false);
                   ("message", JStr "Internal server error");
                   ("error", JUndefined)]) = Json body
       /\ get_prop "error" body = JUndefined.
Proof.
  split; [vm_compute; reflexivity|].
  apply (app_hides_error_text Runtime.JSON_parse Runtime.Date_parse Runtime.toISOString
           Runtime.encodeURIComponent Demo.globe Demo.cross Demo.tick "/srv/app" "/srv/app"
           (Some "production") Demo.message_of
           Demo.get_docs (Demo.process_of Demo.with_directory) 500 _
           ltac:(discriminate)).
  - vm_compute. reflexivity.
  - reflexivity.
Defined.
